(** * Ledger consistency of the YNAB-like budgeting API

    A shallow embedding of the transaction, category and budget-engine
    handlers (src/api/transactions.js, src/api/categories.js,
    src/budget-engine.js) over an explicit model of the Prisma store,
    and of the account and authentication handlers and the routes that
    serve them (src/api/accounts.js, src/api/auth.js, src/server.js).

    Modelling choices.
    - Money.  Amounts, balances, [assigned], [spent] and
      [availableToBudget] are decimal columns; the arithmetic the claims
      are about is exact, so they are integers here (an amount counted in
      the smallest unit of the currency).
    - Tables are finite maps from the row id to the row.
    - [prisma.$transaction(async (tx) => ...)] commits when the callback
      returns (also when it returns a 404 response) and rolls back when
      the callback throws.  The callback is a computation in the monad
      [Tx]; [transaction] runs it and restores the store on a throw.
    - Referential constraints live in the Prisma schema, which is not part
      of the sources; they are not modelled.  They could only turn some
      writes into a throw, that is into a rollback.
    - What the database generates on an insert (keys, column defaults,
      creation times) and the salt of a hash are arguments of the handler
      that inserts.
    - Library functions are variables of the section that uses them: the
      date parser, the order of names in the database, the messages of
      the client's errors, the email check of the schema, bcrypt and
      jsonwebtoken. *)

From stdpp Require Import gmap strings list fin_maps sorting.
From Stdlib Require Import ZArith Lia.

#[local] Open Scope string_scope.
#[local] Open Scope Z_scope.

(** ** JavaScript values *)

(** A field of a parsed payload declared [.optional().nullable()]: it may be
    missing ([undefined]), [null], or hold a value. *)
Inductive JsOpt (A : Type) : Type :=
  | Undefined
  | Null
  | Value (a : A).
Arguments Undefined {A}.
Arguments Null {A}.
Arguments Value {A} a.

(** What a nullable column holds once written: [undefined] is stored as
    [null]. *)
Definition toColumn {A} (v : JsOpt A) : option A :=
  match v with
  | Value a => Some a
  | Undefined | Null => None
  end.

(** [v === undefined ? old : v] for a nullable column. *)
Definition orKeep {A} (v : JsOpt A) (old : option A) : option A :=
  match v with
  | Undefined => old
  | Null => None
  | Value a => Some a
  end.

(** [v ?? old]. *)
Definition nullish {A} (v : option A) (old : A) : A :=
  match v with
  | Some a => a
  | None => old
  end.

(** Truthiness of an id read from a payload or a row: [undefined], [null]
    and the empty string are falsy. *)
Definition truthy (v : option string) : bool :=
  match v with
  | Some s => negb (String.eqb s "")
  | None => false
  end.

(** ** Rows *)

Record Account := mkAccount {
  acc_userId : string;
  acc_name : string;
  acc_type : string;
  balance : Z
}.

Record BudgetMonth := mkBudgetMonth {
  bm_userId : string;
  month : string;
  availableToBudget : Z
}.

Record Category := mkCategory {
  budgetMonthId : string;
  cat_name : string;
  assigned : Z;
  spent : Z
}.

Record Transaction := mkTransaction {
  accountId : string;
  categoryId : option string;
  amount : Z;
  date : string;
  payee : option string;
  memo : option string;
  cleared : bool
}.

#[global] Instance Transaction_eq_dec : EqDecision Transaction.
Proof. solve_decision. Defined.

(** The store: one finite map per table. *)
Record Db := mkDb {
  accounts : gmap string Account;
  budgetMonths : gmap string BudgetMonth;
  categories : gmap string Category;
  transactions : gmap string Transaction
}.

Definition setAccounts (f : gmap string Account → gmap string Account) (db : Db) : Db :=
  mkDb (f (accounts db)) (budgetMonths db) (categories db) (transactions db).
Definition setBudgetMonths (f : gmap string BudgetMonth → gmap string BudgetMonth) (db : Db) : Db :=
  mkDb (accounts db) (f (budgetMonths db)) (categories db) (transactions db).
Definition setCategories (f : gmap string Category → gmap string Category) (db : Db) : Db :=
  mkDb (accounts db) (budgetMonths db) (f (categories db)) (transactions db).
Definition setTransactions (f : gmap string Transaction → gmap string Transaction) (db : Db) : Db :=
  mkDb (accounts db) (budgetMonths db) (categories db) (f (transactions db)).

(** Atomic number operations of an update: [{ increment: by }] on one
    column ([{ decrement: by }] is an increment by the opposite), and a
    plain assignment of [availableToBudget]. *)
Definition addBalance (by_ : Z) (a : Account) : Account :=
  mkAccount (acc_userId a) (acc_name a) (acc_type a) (balance a + by_).
Definition addSpent (by_ : Z) (c : Category) : Category :=
  mkCategory (budgetMonthId c) (cat_name c) (assigned c) (spent c + by_).
Definition addAssigned (by_ : Z) (c : Category) : Category :=
  mkCategory (budgetMonthId c) (cat_name c) (assigned c + by_) (spent c).
Definition withAvailable (v : Z) (b : BudgetMonth) : BudgetMonth :=
  mkBudgetMonth (bm_userId b) (month b) v.

(** ** Exceptions, responses and the transaction monad *)

Inductive Exn : Type :=
  | Error (msg : string)        (* throw new Error(msg) *)
  | ZodError                    (* schema.parse rejected the payload *)
  | PrismaError (code : string) (* the client rejected a write *).

#[global] Instance Exn_eq_dec : EqDecision Exn.
Proof. solve_decision. Defined.

Inductive Body : Type :=
  | BError (error : string)
  | BAccount (id : string) (row : Account)
  | BTransaction (id : string) (row : Transaction)
  | BSuccess
  | BAssign (budgetId : string) (budget : BudgetMonth) (catId : string) (category : Category).

Record Response := mkResponse { status : Z; body : Body }.

(** The answer of a handler whose body is a value of type [A]: a list, or a
    created row. *)
Record Reply (A : Type) := mkReply { reply_status : Z; reply_body : A }.
Arguments mkReply {A} reply_status reply_body.
Arguments reply_status {A} r.
Arguments reply_body {A} r.

(** A callback run against the transactional client: it either throws or
    returns a value together with the store it has written. *)
Definition Tx (A : Type) : Type := Db → Exn + (A * Db).

#[global] Instance Tx_ret : MRet Tx := λ A a db, inr (a, db).
#[global] Instance Tx_bind : MBind Tx := λ A B f m db,
  match m db with
  | inl e => inl e
  | inr (a, db') => f a db'
  end.

Definition throw {A} (e : Exn) : Tx A := λ _, inl e.
Definition getDb : Tx Db := λ db, inr (db, db).
Definition modifyDb (f : Db → Db) : Tx unit := λ db, inr (tt, f db).

(** [prisma.$transaction(work)]: commit on return, roll back on throw. *)
Definition transaction {A} (work : Tx A) (db : Db) : (Exn + A) * Db :=
  match work db with
  | inl e => (inl e, db)
  | inr (a, db') => (inr a, db')
  end.

(** ** The Prisma client calls the handlers make *)

Module Prisma.

(** [tx.account.findFirst({ where: { id, userId } })] *)
Definition account_findFirst (id userId : string) : Tx (option Account) :=
  db ← getDb;
  mret (match accounts db !! id with
        | Some a => if decide (acc_userId a = userId) then Some a else None
        | None => None
        end).

(** [tx.account.create({ data })]; [id] is the generated key, which
    must be unused. *)
Definition account_create (id : string) (row : Account) : Tx unit :=
  db ← getDb;
  match accounts db !! id with
  | Some _ => throw (PrismaError "P2002")
  | None => modifyDb (setAccounts <[id := row]>)
  end.

(** [tx.account.update({ where: { id }, data: { balance: { increment } } })];
    a decrement is an increment by the opposite.  A missing row makes the
    client throw. *)
Definition account_incrementBalance (id : string) (by_ : Z) : Tx unit :=
  db ← getDb;
  match accounts db !! id with
  | Some a =>
      modifyDb (setAccounts <[id := addBalance by_ a]>)
  | None => throw (PrismaError "P2025")
  end.

(** [tx.category.findFirst({ where: { id, budgetMonth: { userId } } })] *)
Definition category_findFirst_ofUser (id userId : string) : Tx (option Category) :=
  db ← getDb;
  mret (match categories db !! id with
        | Some c =>
            match budgetMonths db !! budgetMonthId c with
            | Some b => if decide (bm_userId b = userId) then Some c else None
            | None => None
            end
        | None => None
        end).

(** [tx.category.findFirst({ where: { id, budgetMonthId } })] *)
Definition category_findFirst_ofBudget (id bmId : string) : Tx (option Category) :=
  db ← getDb;
  mret (match categories db !! id with
        | Some c => if decide (budgetMonthId c = bmId) then Some c else None
        | None => None
        end).

(** [tx.category.update({ where: { id }, data: { spent: { increment } } })] *)
Definition category_incrementSpent (id : string) (by_ : Z) : Tx unit :=
  db ← getDb;
  match categories db !! id with
  | Some c =>
      modifyDb (setCategories <[id := addSpent by_ c]>)
  | None => throw (PrismaError "P2025")
  end.

(** [tx.category.update({ where: { id }, data: { assigned: { increment } } })],
    returning the updated row. *)
Definition category_incrementAssigned (id : string) (by_ : Z) : Tx Category :=
  db ← getDb;
  match categories db !! id with
  | Some c =>
      let c' := addAssigned by_ c in
      modifyDb (setCategories <[id := c']>);;
      mret c'
  | None => throw (PrismaError "P2025")
  end.

(** [tx.budgetMonth.findUnique({ where: { userId_month: { userId, month } } })] *)
Definition budgetMonth_findUnique (userId m : string) : Tx (option (string * BudgetMonth)) :=
  db ← getDb;
  mret (snd <$> list_find
          (λ kb : string * BudgetMonth,
             bm_userId kb.2 = userId ∧ month kb.2 = m)
          (map_to_list (budgetMonths db))).

(** [tx.budgetMonth.update({ where: { id }, data: { availableToBudget } })] *)
Definition budgetMonth_setAvailable (id : string) (v : Z) : Tx BudgetMonth :=
  db ← getDb;
  match budgetMonths db !! id with
  | Some b =>
      let b' := withAvailable v b in
      modifyDb (setBudgetMonths <[id := b']>);;
      mret b'
  | None => throw (PrismaError "P2025")
  end.

(** [tx.transaction.findFirst({ where: { id, account: { userId } } })] *)
Definition transaction_findFirst (id userId : string) : Tx (option Transaction) :=
  db ← getDb;
  mret (match transactions db !! id with
        | Some t =>
            match accounts db !! accountId t with
            | Some a => if decide (acc_userId a = userId) then Some t else None
            | None => None
            end
        | None => None
        end).

(** [tx.transaction.create({ data })]; [id] is the key the database
    generates for the new row, which must be unused. *)
Definition transaction_create (id : string) (row : Transaction) : Tx unit :=
  db ← getDb;
  match transactions db !! id with
  | Some _ => throw (PrismaError "P2002")
  | None => modifyDb (setTransactions <[id := row]>)
  end.

(** [tx.transaction.update({ where: { id }, data })] *)
Definition transaction_update (id : string) (row : Transaction) : Tx unit :=
  db ← getDb;
  match transactions db !! id with
  | Some _ => modifyDb (setTransactions <[id := row]>)
  | None => throw (PrismaError "P2025")
  end.

(** [tx.transaction.delete({ where: { id } })] *)
Definition transaction_delete (id : string) : Tx unit :=
  db ← getDb;
  match transactions db !! id with
  | Some _ => modifyDb (setTransactions (delete id))
  | None => throw (PrismaError "P2025")
  end.

(** [prisma.account.findMany({ where: { userId }, orderBy: { name: 'asc' } })];
    [nameLe] is the order in which the database sorts names. *)
Definition account_findMany (nameLe : string → string → bool) (userId : string)
    (db : Db) : list (string * Account) :=
  merge_sort (λ x y : string * Account, Is_true (nameLe (acc_name x.2) (acc_name y.2)))
    (filter (λ kv : string * Account, acc_userId kv.2 = userId) (map_to_list (accounts db))).

(** [tx.account.update({ where: { id }, data })] for a [data] with an
    optional name and an optional balance; a missing field is left as it
    is.  Returns the updated row. *)
Definition account_update (id : string) (name : option string) (bal : option Z) : Tx Account :=
  db ← getDb;
  match accounts db !! id with
  | Some a =>
      let a' := mkAccount (acc_userId a) (nullish name (acc_name a)) (acc_type a)
                  (nullish bal (balance a)) in
      modifyDb (setAccounts <[id := a']>);;
      mret a'
  | None => throw (PrismaError "P2025")
  end.

(** [tx.budgetMonth.upsert({ where: { userId_month }, update: {},
    create: { userId, month } })]: the row of the key if there is one, else
    a new row under the generated [id], with the column default
    [available]. *)
Definition budgetMonth_upsert (id : string) (available : Z) (userId m : string)
    : Tx (string * BudgetMonth) :=
  db ← getDb;
  match snd <$> list_find
          (λ kb : string * BudgetMonth, bm_userId kb.2 = userId ∧ month kb.2 = m)
          (map_to_list (budgetMonths db)) with
  | Some kb => mret kb
  | None =>
      match budgetMonths db !! id with
      | Some _ => throw (PrismaError "P2002")
      | None =>
          let b := mkBudgetMonth userId m available in
          modifyDb (setBudgetMonths <[id := b]>);;
          mret (id, b)
      end
  end.

(** [tx.category.create({ data })]; [id] is the generated key, which must
    be unused. *)
Definition category_create (id : string) (row : Category) : Tx unit :=
  db ← getDb;
  match categories db !! id with
  | Some _ => throw (PrismaError "P2002")
  | None => modifyDb (setCategories <[id := row]>)
  end.

(** [prisma.budgetMonth.findUnique({ where: { userId_month },
    include: { categories: true } })]: the categories of the budget month
    of the key, if there is one. *)
Definition budgetMonth_findUnique_categories (userId m : string) (db : Db)
    : option (list (string * Category)) :=
  kb ← snd <$> list_find
          (λ kb : string * BudgetMonth, bm_userId kb.2 = userId ∧ month kb.2 = m)
          (map_to_list (budgetMonths db));
  Some (filter (λ kc : string * Category, budgetMonthId kc.2 = kb.1)
          (map_to_list (categories db))).

(** The [where] of the transaction queries: the owner of the account, and
    optional filters on the account, the category and the instant of the
    date. *)
Record TransactionWhere := mkTransactionWhere {
  where_userId : string;
  where_accountId : option string;
  where_categoryId : option string;
  where_gte : option Z;
  where_lte : option Z
}.

(** Whether a transaction row satisfies a [where]; [instant] gives the
    instant a stored date denotes. *)
Definition transaction_matches (instant : string → Z) (w : TransactionWhere) (db : Db)
    (kt : string * Transaction) : bool :=
  match accounts db !! accountId kt.2 with
  | Some a => bool_decide (acc_userId a = where_userId w)
  | None => false
  end
  && from_option (λ x, bool_decide (accountId kt.2 = x)) true (where_accountId w)
  && from_option (λ c, bool_decide (categoryId kt.2 = Some c)) true (where_categoryId w)
  && from_option (λ lo, lo <=? instant (date kt.2)) true (where_gte w)
  && from_option (λ hi, instant (date kt.2) <=? hi) true (where_lte w).

(** [orderBy: { date: 'desc' }]: the row [x] may come before the row
    [y]. *)
Definition newerFirst (instant : string → Z) (x y : string * Transaction) : Prop :=
  instant (date y.2) ≤ instant (date x.2).

#[global] Instance newerFirst_dec instant x y : Decision (newerFirst instant x y).
Proof. unfold newerFirst. apply _. Defined.

(** The rows of a [where], newest first.  Rows of the same instant come in
    an order that depends on the table only. *)
Definition transaction_ordered (instant : string → Z) (w : TransactionWhere) (db : Db)
    : list (string * Transaction) :=
  merge_sort (newerFirst instant)
    (filter (λ kt, Is_true (transaction_matches instant w db kt))
       (map_to_list (transactions db))).

(** [prisma.transaction.findMany({ where, orderBy: { date: 'desc' }, skip,
    take })], for a [skip] and a [take] that are not negative. *)
Definition transaction_findMany (instant : string → Z) (w : TransactionWhere)
    (skip take_ : Z) (db : Db) : list (string * Transaction) :=
  take (Z.to_nat take_) (drop (Z.to_nat skip) (transaction_ordered instant w db)).

(** [prisma.transaction.count({ where })] *)
Definition transaction_count (instant : string → Z) (w : TransactionWhere) (db : Db) : Z :=
  Z.of_nat (length (filter (λ kt, Is_true (transaction_matches instant w db kt))
                      (map_to_list (transactions db)))).

End Prisma.

(** ** src/budget-engine.js *)

Module BudgetEngine.

Record Input := mkInput { in_availableToBudget : Z; in_assigned : Z }.

(** [assignMoney(input)] *)
Definition assignMoney (input : Input) : Exn + Input :=
  if in_assigned input <? 0 then
    inl (Error "Assigned amount must be >= 0")
  else if in_availableToBudget input <? in_assigned input then
    inl (Error "Insufficient available funds")
  else
    inr (mkInput (in_availableToBudget input - in_assigned input) (in_assigned input)).

End BudgetEngine.

(** ** src/api/categories.js *)

Module Categories.
Section WithDate.

(** [new Date(text)]: [None] when the text does not parse as a date
    (Invalid Date), else the instant it denotes. *)
Variable newDate : string → option string.

(** The handler's own [parseMonth(monthString)]. *)
Definition parseMonth (monthString : string) : Exn + string :=
  match newDate (monthString ++ "-01T00:00:00.000Z") with
  | Some m => inr m
  | None => inl (Error "Invalid month format; expected YYYY-MM")
  end.

(** [assignSchema = z.object({ amount: z.number().nonnegative() })] *)
Record AssignPayload := mkAssignPayload { as_amount : Z }.

Definition assignSchema_parse (payload : AssignPayload) : Exn + AssignPayload :=
  if as_amount payload <? 0 then inl ZodError else inr payload.

Definition liftExn {A} (r : Exn + A) : Tx A :=
  match r with
  | inl e => throw e
  | inr a => mret a
  end.

(** [assign(userId, monthString, categoryId, payload)] *)
Definition assign (userId monthString categoryId : string) (payload : AssignPayload)
    (db : Db) : (Exn + Response) * Db :=
  match parseMonth monthString with
  | inl e => (inl e, db)
  | inr m =>
    match assignSchema_parse payload with
    | inl e => (inl e, db)
    | inr input =>
      transaction (
        budget ← Prisma.budgetMonth_findUnique userId m;
        match budget with
        | None => mret (mkResponse 404 (BError "Budget month not found"))
        | Some (budgetId, budget) =>
          category ← Prisma.category_findFirst_ofBudget categoryId budgetId;
          match category with
          | None => mret (mkResponse 404 (BError "Category not found"))
          | Some _ =>
            engine ← liftExn (BudgetEngine.assignMoney
                       (BudgetEngine.mkInput (availableToBudget budget) (as_amount input)));
            updatedBudget ← Prisma.budgetMonth_setAvailable budgetId
                              (BudgetEngine.in_availableToBudget engine);
            updatedCategory ← Prisma.category_incrementAssigned categoryId (as_amount input);
            mret (mkResponse 200 (BAssign budgetId updatedBudget categoryId updatedCategory))
          end
        end) db
    end
  end.

(** A payload for [categoryCreateSchema].  The [group] of a category is
    accepted and stored, but no handler reads it; the row model has no
    such column. *)
Record CreatePayload := mkCreatePayload {
  cc_name : string;
  cc_group : option string
}.

Definition categoryCreateSchema_parse (payload : CreatePayload) : Exn + CreatePayload :=
  if String.eqb (cc_name payload) "" then inl ZodError else inr payload.

(** What the database fills in when [create] inserts: the keys of the two
    rows and the defaults of their number columns. *)
Record Generated := mkGenerated {
  gen_budgetId : string;
  gen_available : Z;
  gen_categoryId : string;
  gen_assigned : Z;
  gen_spent : Z
}.

(** [create(userId, monthString, payload)] *)
Definition create (gen : Generated) (userId monthString : string) (payload : CreatePayload)
    (db : Db) : (Exn + Reply (string * Category)) * Db :=
  match parseMonth monthString with
  | inl e => (inl e, db)
  | inr m =>
    match categoryCreateSchema_parse payload with
    | inl e => (inl e, db)
    | inr input =>
      match transaction (
              budget ← Prisma.budgetMonth_upsert (gen_budgetId gen) (gen_available gen)
                         userId m;
              let row := mkCategory budget.1 (cc_name input) (gen_assigned gen)
                           (gen_spent gen) in
              Prisma.category_create (gen_categoryId gen) row;;
              mret (gen_categoryId gen, row)) db with
      | (inl e, db') => (inl e, db')
      | (inr created, db') => (inr (mkReply 201 created), db')
      end
    end
  end.

(** [list(userId, monthString)] *)
Definition list (userId monthString : string) (db : Db)
    : Exn + Reply (list (string * Category)) :=
  match parseMonth monthString with
  | inl e => inl e
  | inr m =>
    inr (mkReply 200 (default [] (Prisma.budgetMonth_findUnique_categories userId m db)))
  end.

End WithDate.
End Categories.

(** ** src/api/accounts.js *)

Module Accounts.

(** A payload for [accountCreateSchema]; [balance] may be left out. *)
Record CreatePayload := mkCreatePayload {
  cp_name : string;
  cp_type : string;
  cp_balance : option Z
}.

(** [accountCreateSchema.parse]: a name, one of the three account types,
    and the balance, 0 by default. *)
Definition accountCreateSchema_parse (payload : CreatePayload) : Exn + CreatePayload :=
  if String.eqb (cp_name payload) "" then inl ZodError
  else if String.eqb (cp_type payload) "checking"
          || String.eqb (cp_type payload) "savings"
          || String.eqb (cp_type payload) "credit"
  then inr (mkCreatePayload (cp_name payload) (cp_type payload)
              (Some (nullish (cp_balance payload) 0)))
  else inl ZodError.

(** [create(userId, payload)]; [id] is the key the database generates. *)
Definition create (id userId : string) (payload : CreatePayload)
    (db : Db) : (Exn + Response) * Db :=
  match accountCreateSchema_parse payload with
  | inl e => (inl e, db)
  | inr input =>
    let row := mkAccount userId (cp_name input) (cp_type input)
                 (nullish (cp_balance input) 0) in
    transaction (
      Prisma.account_create id row;;
      mret (mkResponse 201 (BAccount id row))) db
  end.

(** A payload for [accountPatchSchema]: both fields may be left out. *)
Record PatchPayload := mkPatchPayload {
  pp_name : option string;
  pp_balance : option Z
}.

Definition accountPatchSchema_parse (payload : PatchPayload) : Exn + PatchPayload :=
  match pp_name payload with
  | Some n => if String.eqb n "" then inl ZodError else inr payload
  | None => inr payload
  end.

(** [patch(userId, accountId, payload)] *)
Definition patch (userId accountId : string) (payload : PatchPayload)
    (db : Db) : (Exn + Response) * Db :=
  match accountPatchSchema_parse payload with
  | inl e => (inl e, db)
  | inr input =>
    match transaction (
            account ← Prisma.account_findFirst accountId userId;
            match account with
            | None => mret None
            | Some _ =>
              updated ← Prisma.account_update accountId (pp_name input) (pp_balance input);
              mret (Some updated)
            end) db with
    | (inl e, db') => (inl e, db')
    | (inr None, db') => (inr (mkResponse 404 (BError "Account not found")), db')
    | (inr (Some updated), db') => (inr (mkResponse 200 (BAccount accountId updated)), db')
    end
  end.

(** [list(userId)] *)
Definition list (nameLe : string → string → bool) (userId : string) (db : Db)
    : Reply (list (string * Account)) :=
  mkReply 200 (Prisma.account_findMany nameLe userId db).

End Accounts.

(** ** src/api/transactions.js *)

Module Transactions.

(** A payload with the field types of [createSchema]; what the types do
    not say ([accountId] must not be empty) is checked by
    [createSchema_parse].  [date] is an ISO date-time text, as
    [isoDateSchema] accepts it, and the row keeps it as it is. *)
Record CreateInput := mkCreateInput {
  ci_accountId : string;
  ci_categoryId : JsOpt string;
  ci_date : string;
  ci_payee : JsOpt string;
  ci_amount : Z;
  ci_memo : JsOpt string;
  ci_cleared : option bool
}.

(** [patchSchema = createSchema.partial()] *)
Record PatchInput := mkPatchInput {
  pi_accountId : option string;
  pi_categoryId : JsOpt string;
  pi_date : option string;
  pi_payee : JsOpt string;
  pi_amount : option Z;
  pi_memo : JsOpt string;
  pi_cleared : option bool
}.

Definition createSchema_parse (payload : CreateInput) : Exn + CreateInput :=
  if String.eqb (ci_accountId payload) "" then inl ZodError else inr payload.

Definition patchSchema_parse (payload : PatchInput) : Exn + PatchInput :=
  match pi_accountId payload with
  | Some a => if String.eqb a "" then inl ZodError else inr payload
  | None => inr payload
  end.

(** What the database fills in when a row is inserted: the generated key
    and the default of the [cleared] column. *)
Record Generated := mkGenerated { gen_id : string; gen_cleared : bool }.

(** A nullable column read back as a JavaScript value. *)
Definition ofColumn (v : option string) : JsOpt string :=
  match v with
  | Some s => Value s
  | None => Null
  end.

(** [function spendingAmount(categoryId, amount)] *)
Definition spendingAmount (categoryId : JsOpt string) (amount : Z) : Z :=
  if truthy (toColumn categoryId) && (0 <? amount) then amount else 0.

(** [async function ensureCategoryAvailability(tx, userId, categoryId,
    spendAmount, previousSpend = 0)] *)
Definition ensureCategoryAvailability (userId : string) (categoryId : JsOpt string)
    (spendAmount previousSpend : Z) : Tx unit :=
  if negb (truthy (toColumn categoryId)) || (spendAmount <=? 0) then mret tt
  else
    (* past the guard the id is a non-empty string *)
    category ← Prisma.category_findFirst_ofUser (default "" (toColumn categoryId)) userId;
    match category with
    | None => throw (Error "Category not found")
    | Some category =>
        let available := assigned category - (spent category - previousSpend) in
        if available <? spendAmount
        then throw (Error "Spending exceeds available category funds")
        else mret tt
    end.

(** [tx.category.update({ where: { id: categoryId }, data: { spent:
    { increment } } })] for an id that passed the truthiness test before;
    the client rejects a missing [where.id]. *)
Definition updateSpent (categoryId : option string) (by_ : Z) : Tx unit :=
  match categoryId with
  | Some c => Prisma.category_incrementSpent c by_
  | None => throw (PrismaError "P2025")
  end.

(** The row [tx.transaction.create] writes for [data: { ...input,
    amount: input.amount, date: new Date(input.date) }]. *)
Definition createdRow (gen : Generated) (input : CreateInput) : Transaction :=
  mkTransaction (ci_accountId input) (toColumn (ci_categoryId input))
    (ci_amount input) (ci_date input) (toColumn (ci_payee input))
    (toColumn (ci_memo input)) (nullish (ci_cleared input) (gen_cleared gen)).

(** [create(userId, payload)] *)
Definition create (gen : Generated) (userId : string) (payload : CreateInput)
    (db : Db) : (Exn + Response) * Db :=
  match createSchema_parse payload with
  | inl e => (inl e, db)
  | inr input =>
    let spend := spendingAmount (ci_categoryId input) (ci_amount input) in
    transaction (
      account ← Prisma.account_findFirst (ci_accountId input) userId;
      match account with
      | None => mret (mkResponse 404 (BError "Account not found"))
      | Some _ =>
        ensureCategoryAvailability userId (ci_categoryId input) spend 0;;
        let created := createdRow gen input in
        Prisma.transaction_create (gen_id gen) created;;
        Prisma.account_incrementBalance (ci_accountId input) (- ci_amount input);;
        (if 0 <? spend
         then updateSpent (toColumn (ci_categoryId input)) spend
         else mret tt);;
        mret (mkResponse 201 (BTransaction (gen_id gen) created))
      end) db
  end.

(** [input.date ? new Date(input.date) : existing.date] *)
Definition dateOr (v : option string) (old : string) : string :=
  match v with
  | Some d => if String.eqb d "" then old else d
  | None => old
  end.

(** The merged row [next] of [patch]. *)
Definition merge (input : PatchInput) (existing : Transaction) : Transaction :=
  mkTransaction
    (nullish (pi_accountId input) (accountId existing))
    (orKeep (pi_categoryId input) (categoryId existing))
    (nullish (pi_amount input) (amount existing))
    (dateOr (pi_date input) (date existing))
    (orKeep (pi_payee input) (payee existing))
    (orKeep (pi_memo input) (memo existing))
    (nullish (pi_cleared input) (cleared existing)).

(** [patch(userId, transactionId, payload)] *)
Definition patch (userId transactionId : string) (payload : PatchInput)
    (db : Db) : (Exn + Response) * Db :=
  match patchSchema_parse payload with
  | inl e => (inl e, db)
  | inr input =>
    transaction (
      existing ← Prisma.transaction_findFirst transactionId userId;
      match existing with
      | None => mret (mkResponse 404 (BError "Transaction not found"))
      | Some existing =>
        let next := merge input existing in
        let oldSpend := spendingAmount (ofColumn (categoryId existing)) (amount existing) in
        let newSpend := spendingAmount (ofColumn (categoryId next)) (amount next) in
        ensureCategoryAvailability userId (ofColumn (categoryId next)) newSpend
          (if decide (categoryId next = categoryId existing) then oldSpend else 0);;
        Prisma.transaction_update transactionId next;;
        let reconcileSpend : Tx Response :=
          (if truthy (categoryId existing) && (0 <? oldSpend)
           then updateSpent (categoryId existing) (- oldSpend)
           else mret tt);;
          (if truthy (categoryId next) && (0 <? newSpend)
           then updateSpent (categoryId next) newSpend
           else mret tt);;
          mret (mkResponse 200 (BTransaction transactionId next)) in
        if decide (accountId next = accountId existing) then
          Prisma.account_incrementBalance (accountId existing)
            (amount existing - amount next);;
          reconcileSpend
        else
          nextAccount ← Prisma.account_findFirst (accountId next) userId;
          match nextAccount with
          | None => mret (mkResponse 404 (BError "New account not found"))
          | Some _ =>
            Prisma.account_incrementBalance (accountId existing) (amount existing);;
            Prisma.account_incrementBalance (accountId next) (- amount next);;
            reconcileSpend
          end
      end) db
  end.

(** [remove(userId, transactionId)] *)
Definition remove (userId transactionId : string)
    (db : Db) : (Exn + Response) * Db :=
  transaction (
    existing ← Prisma.transaction_findFirst transactionId userId;
    match existing with
    | None => mret (mkResponse 404 (BError "Transaction not found"))
    | Some existing =>
      let oldSpend := spendingAmount (ofColumn (categoryId existing)) (amount existing) in
      Prisma.account_incrementBalance (accountId existing) (amount existing);;
      (if truthy (categoryId existing) && (0 <? oldSpend)
       then updateSpent (categoryId existing) (- oldSpend)
       else mret tt);;
      Prisma.transaction_delete transactionId;;
      mret (mkResponse 200 BSuccess)
    end) db.

End Transactions.

(** ** src/api/transactions.js: [list] *)

Module TransactionsQuery.
Section WithInstant.

(** [new Date(text).getTime()]: the instant an ISO date-time text
    denotes. *)
Variable instant : string → Z.

(** A number field of the query string after [z.coerce.number()]: the field
    is absent, or [Number(raw)] is no integer (NaN, a fraction, an
    infinity), or it is the integer [n]. *)
Inductive Coerced : Type :=
  | Absent
  | NotInteger
  | Integer (n : Z).

(** The query of [list]; the filters are texts or absent, the dates ISO
    date-time texts as [isoDateSchema] accepts them. *)
Record Query := mkQuery {
  q_page : Coerced;
  q_limit : Coerced;
  q_accountId : option string;
  q_categoryId : option string;
  q_dateFrom : option string;
  q_dateTo : option string
}.

(** [z.coerce.number().int().min(lo).max(hi).default(d)] *)
Definition coerceInt (lo : Z) (hi : option Z) (d : Z) (v : Coerced) : Exn + Z :=
  match v with
  | Absent => inr d
  | NotInteger => inl ZodError
  | Integer n =>
      if (n <? lo) || from_option (λ h, h <? n) false hi then inl ZodError else inr n
  end.

(** The parsed query: [page] and [limit] are numbers now. *)
Record Input := mkInput {
  in_page : Z;
  in_limit : Z;
  in_accountId : option string;
  in_categoryId : option string;
  in_dateFrom : option string;
  in_dateTo : option string
}.

(** [listSchema.parse(query)] *)
Definition listSchema_parse (query : Query) : Exn + Input :=
  match coerceInt 1 None 1 (q_page query) with
  | inl e => inl e
  | inr page =>
    match coerceInt 1 (Some 100) 25 (q_limit query) with
    | inl e => inl e
    | inr limit =>
      inr (mkInput page limit (q_accountId query) (q_categoryId query)
             (q_dateFrom query) (q_dateTo query))
    end
  end.

(** [x ? { key: x } : {}] for a text [x]. *)
Definition whenTruthy (v : option string) : option string :=
  if truthy v then v else None.

(** The [where] object [list] builds. *)
Definition whereOf (userId : string) (input : Input) : Prisma.TransactionWhere :=
  Prisma.mkTransactionWhere userId
    (whenTruthy (in_accountId input))
    (whenTruthy (in_categoryId input))
    (if truthy (in_dateFrom input) || truthy (in_dateTo input)
     then instant <$> whenTruthy (in_dateFrom input) else None)
    (if truthy (in_dateFrom input) || truthy (in_dateTo input)
     then instant <$> whenTruthy (in_dateTo input) else None).

(** The body of the answer. *)
Record Page := mkPage {
  items : list (string * Transaction);
  total : Z;
  page : Z;
  limit : Z
}.

(** [list(userId, query)] *)
Definition list (userId : string) (query : Query) (db : Db) : Exn + Reply Page :=
  match listSchema_parse query with
  | inl e => inl e
  | inr input =>
    let where_ := whereOf userId input in
    inr (mkReply 200
           (mkPage
              (Prisma.transaction_findMany instant where_
                 ((in_page input - 1) * in_limit input) (in_limit input) db)
              (Prisma.transaction_count instant where_ db)
              (in_page input) (in_limit input)))
  end.

End WithInstant.
End TransactionsQuery.

Import Transactions.

(** ** The quantities the ledger claims are about *)

(** The sum of [f] over the stored (active) transactions. *)
Definition sumOver (f : Transaction → Z) (txs : gmap string Transaction) : Z :=
  map_fold (λ _ t acc, f t + acc) 0 txs.

(** What a transaction row adds to the total of account [a]. *)
Definition amountOn (a : string) (t : Transaction) : Z :=
  if decide (accountId t = a) then amount t else 0.

(** What a transaction row adds to the spend total of category [c]. *)
Definition spendOn (c : string) (t : Transaction) : Z :=
  if decide (categoryId t = Some c)
  then spendingAmount (ofColumn (categoryId t)) (amount t)
  else 0.

(** Sum of the amounts of the active transactions referencing account [a]. *)
Definition accountTotal (db : Db) (a : string) : Z :=
  sumOver (amountOn a) (transactions db).

(** Sum of the spend contributions of the active transactions referencing
    category [c]. *)
Definition categoryTotal (db : Db) (c : string) : Z :=
  sumOver (spendOn c) (transactions db).

Definition balanceOf (db : Db) (a : string) : Z :=
  from_option balance 0 (accounts db !! a).

Definition spentOf (db : Db) (c : string) : Z :=
  from_option spent 0 (categories db !! c).

(** The committed writes of the handlers, as functions on the store. *)
Definition creditBalance (id : string) (by_ : Z) (db : Db) : Db :=
  setAccounts (alter (addBalance by_) id) db.

Definition moveSpent (categoryId : option string) (by_ : Z)
    (cats : gmap string Category) : gmap string Category :=
  match categoryId with
  | Some c => alter (addSpent by_) c cats
  | None => cats
  end.

Definition creditSpent (categoryId : option string) (by_ : Z) (db : Db) : Db :=
  setCategories (moveSpent categoryId by_) db.

(** The store a successful [create] commits. *)
Definition created (gen : Generated) (payload : CreateInput) (db : Db) : Db :=
  creditSpent (toColumn (ci_categoryId payload))
    (spendingAmount (ci_categoryId payload) (ci_amount payload))
    (creditBalance (ci_accountId payload) (- ci_amount payload)
       (setTransactions <[gen_id gen := createdRow gen payload]> db)).

(** The store a successful [remove] commits. *)
Definition removed (transactionId : string) (existing : Transaction) (db : Db) : Db :=
  setTransactions (delete transactionId)
    (creditSpent (categoryId existing)
       (- spendingAmount (ofColumn (categoryId existing)) (amount existing))
       (creditBalance (accountId existing) (amount existing) db)).

(** The balance writes of a successful [patch]. *)
Definition rebalanced (existing next : Transaction) (db : Db) : Db :=
  if decide (accountId next = accountId existing)
  then creditBalance (accountId existing) (amount existing - amount next) db
  else creditBalance (accountId next) (- amount next)
         (creditBalance (accountId existing) (amount existing) db).

(** The store a successful [patch] commits. *)
Definition patched (transactionId : string) (existing next : Transaction) (db : Db) : Db :=
  creditSpent (categoryId next)
    (spendingAmount (ofColumn (categoryId next)) (amount next))
    (creditSpent (categoryId existing)
       (- spendingAmount (ofColumn (categoryId existing)) (amount existing))
       (rebalanced existing next (setTransactions <[transactionId := next]> db))).

(** The spend writes of [patch], after the row and the balances. *)
Definition patchSpent (transactionId : string) (existing next : Transaction)
    (db : Db) : (Exn + Response) * Db :=
  if decide ((0 < spendingAmount (ofColumn (categoryId existing)) (amount existing) ∧
              categoryId existing ≫= (categories db !!.) = None) ∨
             (0 < spendingAmount (ofColumn (categoryId next)) (amount next) ∧
              categoryId next ≫= (categories db !!.) = None))
  then (inl (PrismaError "P2025"), db)
  else (inr (mkResponse 200 (BTransaction transactionId next)),
        patched transactionId existing next db).


(** The spend identity of the specification. *)
Definition spendIdentity (db : Db) : Prop :=
  ∀ id c, categories db !! id = Some c → spent c = categoryTotal db id.

(** A category id is present when it names something: it is neither
    [undefined], nor [null], nor the empty string. *)
Definition present (categoryId : JsOpt string) : Prop :=
  ∃ c, categoryId = Value c ∧ c ≠ "".

#[global] Instance present_dec categoryId : Decision (present categoryId).
Proof.
  unfold present. destruct categoryId as [| |c].
  - right. by intros (? & ? & ?).
  - right. by intros (? & ? & ?).
  - destruct (decide (c = "")) as [->|Hc].
    + right. intros (c' & [= <-] & Hc'). by destruct Hc'.
    + left. by exists c.
Defined.

(** "Owned by the caller", for an account, a category and a transaction. *)
Definition ownsAccount (db : Db) (userId id : string) : Prop :=
  ∃ a, accounts db !! id = Some a ∧ acc_userId a = userId.

#[global] Instance ownsAccount_dec db userId id : Decision (ownsAccount db userId id).
Proof.
  unfold ownsAccount. destruct (accounts db !! id) as [a|].
  - destruct (decide (acc_userId a = userId)) as [Hu|Hu].
    + left. by exists a.
    + right. intros (a' & [= <-] & Hu'). by destruct Hu.
  - right. by intros (? & ? & ?).
Defined.

Definition categoryOf (db : Db) (userId id : string) (c : Category) : Prop :=
  categories db !! id = Some c ∧
  ∃ b, budgetMonths db !! budgetMonthId c = Some b ∧ bm_userId b = userId.

Definition transactionOf (db : Db) (userId id : string) (t : Transaction) : Prop :=
  transactions db !! id = Some t ∧ ownsAccount db userId (accountId t).

(** The outcomes of the specification, read off a handler result. *)
Definition Overextended : Exn := Error "Spending exceeds available category funds".
Definition InsufficientFunds : Exn := Error "Insufficient available funds".
Definition notFound (error : string) : Response := mkResponse 404 (BError error).

(** The offset between the balance of an account and the transactions that
    reference it, and between the spent total of a category and the spend
    contributions that reference it. *)
Definition balanceOffset (db : Db) (id : string) : Z :=
  balanceOf db id + accountTotal db id.

Definition spentOffset (db : Db) (id : string) : Z :=
  spentOf db id - categoryTotal db id.

(** What an operation that is not a failed account swap keeps. *)
Definition keeps (db db' : Db) : Prop :=
  (∀ id, balanceOffset db' id = balanceOffset db id) ∧
  (∀ id, spentOffset db' id = spentOffset db id) ∧
  (∀ id, is_Some (accounts db' !! id) ↔ is_Some (accounts db !! id)) ∧
  (∀ id, is_Some (categories db' !! id) ↔ is_Some (categories db !! id)).

(** ** Sequences of ledger operations *)

Inductive Op : Type :=
  | OpCreate (gen : Generated) (userId : string)
             (payload : CreateInput)
  | OpPatch (userId transactionId : string) (payload : PatchInput)
  | OpRemove (userId transactionId : string).

Definition step (op : Op) (db : Db) : (Exn + Response) * Db :=
  match op with
  | OpCreate gen userId payload => create gen userId payload db
  | OpPatch userId transactionId payload => patch userId transactionId payload db
  | OpRemove userId transactionId => remove userId transactionId db
  end.

Fixpoint run (ops : list Op) (db : Db) : Db :=
  match ops with
  | [] => db
  | op :: ops' => run ops' (step op db).2
  end.

(** The answer of a [patch] whose new account did not resolve for the
    caller. *)
Definition failedSwap (r : Exn + Response) : bool :=
  match r with
  | inr (mkResponse 404 (BError msg)) => String.eqb msg "New account not found"
  | _ => false
  end.

(** No operation of the sequence ends in [failedSwap]. *)
Fixpoint noFailedSwap (ops : list Op) (db : Db) : bool :=
  match ops with
  | [] => true
  | op :: ops' => negb (failedSwap (step op db).1) && noFailedSwap ops' (step op db).2
  end.

(** ** Concrete stores and requests *)

(** Scenario 2 and 4 of the specification: user [u1] has account [A] with
    balance 100 and a category [c] with 50 assigned and nothing spent;
    account [B] belongs to another user. *)
Definition scenarioDb : Db :=
  mkDb {[ "A" := mkAccount "u1" "Checking" "checking" 100;
          "B" := mkAccount "u2" "Savings" "savings" 0 ]}
       {[ "m1" := mkBudgetMonth "u1" "2026-01-01T00:00:00.000Z" 100 ]}
       {[ "c" := mkCategory "m1" "Groceries" 50 0 ]}
       ∅.




(** Scenario 1: 100 available to budget, nothing assigned yet. *)
Definition scenario1Db : Db :=
  mkDb ∅
       {[ "m1" := mkBudgetMonth "u1" "2026-01-01T00:00:00.000Z" 100 ]}
       {[ "c" := mkCategory "m1" "Groceries" 0 0 ]}
       ∅.


(** A date parser that accepts every text. *)
Definition anyDate (text : string) : option string := Some text.

Definition gen1 : Generated := mkGenerated "t1" false.

(** [{ accountId: "A", categoryId: "c", date, amount }] *)
Definition spendOnA (amount : Z) : CreateInput :=
  mkCreateInput "A" (Value "c") "2026-01-05T00:00:00.000Z"
    Undefined amount Undefined None.

(** The row of [spendOnA amount], and the same row on another account. *)
Definition rowOn (accountId : string) (amount : Z) : Transaction :=
  mkTransaction accountId (Some "c") amount "2026-01-05T00:00:00.000Z" None None false.

Definition patchAccount (accountId : string) : PatchInput :=
  mkPatchInput (Some accountId) Undefined None Undefined None Undefined None.
Definition patchAccountAmount (accountId : string) (amount : Z) : PatchInput :=
  mkPatchInput (Some accountId) Undefined None Undefined (Some amount)
    Undefined None.

(** ** What the ledger operations keep and leave alone *)

(** The caller of an operation and the transaction row it names. *)
Definition opUser (op : Op) : string :=
  match op with
  | OpCreate _ userId _ | OpPatch userId _ _ | OpRemove userId _ => userId
  end.

Definition opTarget (op : Op) : string :=
  match op with
  | OpCreate gen _ _ => gen_id gen
  | OpPatch _ transactionId _ | OpRemove _ transactionId => transactionId
  end.

(** A handler result that reports a failure: a throw, or a 404 answer. *)
Definition isFailure (r : Exn + Response) : bool :=
  match r with
  | inl _ => true
  | inr resp => status resp =? 404
  end.

(** No category has more spent than assigned. *)
Definition noOverspend (db : Db) : Prop :=
  ∀ id c, categories db !! id = Some c → spent c ≤ assigned c.

(** Two rows that differ at most in the money column the ledger derives. *)
Definition sameAccount (a a' : Account) : Prop :=
  acc_userId a' = acc_userId a ∧ acc_name a' = acc_name a ∧ acc_type a' = acc_type a.

Definition sameCategory (c c' : Category) : Prop :=
  budgetMonthId c' = budgetMonthId c ∧ cat_name c' = cat_name c ∧ assigned c' = assigned c.


(** ** The money of a budget month *)

(** The budget month a unique-key lookup returns. *)
Definition findBudget (db : Db) (userId m : string) : option (string * BudgetMonth) :=
  snd <$> list_find (λ kb : string * BudgetMonth, bm_userId kb.2 = userId ∧ month kb.2 = m)
            (map_to_list (budgetMonths db)).

(** The store a successful [assign] commits. *)
Definition assignedTo (budgetId categoryId : string) (amount : Z) (db : Db) : Db :=
  setCategories (alter (addAssigned amount) categoryId)
    (setBudgetMonths (alter (λ b, withAvailable (availableToBudget b - amount) b) budgetId) db).




(** No budget month has a negative pool. *)
Definition noNegativePool (db : Db) : Prop :=
  ∀ id b, budgetMonths db !! id = Some b → 0 ≤ availableToBudget b.

(** One budget month per user and month: the unique key [userId_month]. *)
Definition uniqueMonths (db : Db) : Prop :=
  ∀ id1 b1 id2 b2,
    budgetMonths db !! id1 = Some b1 → budgetMonths db !! id2 = Some b2 →
    bm_userId b1 = bm_userId b2 → month b1 = month b2 → id1 = id2.

(** ** The rows the accounts and categories handlers write *)

(** The row [accounts.patch] writes over [a]. *)
Definition patchedAccount (payload : Accounts.PatchPayload) (a : Account) : Account :=
  mkAccount (acc_userId a) (nullish (Accounts.pp_name payload) (acc_name a)) (acc_type a)
    (nullish (Accounts.pp_balance payload) (balance a)).

(** The category row [categories.create] writes into budget month [b]. *)
Definition newCategory (gen : Categories.Generated) (payload : Categories.CreatePayload)
    (b : string) : Category :=
  mkCategory b (Categories.cc_name payload) (Categories.gen_assigned gen)
    (Categories.gen_spent gen).

(** A category of the budget month of [userId] for month [m]. *)
Definition categoryIn (db : Db) (userId m id : string) (c : Category) : Prop :=
  categories db !! id = Some c ∧
  ∃ b, budgetMonths db !! budgetMonthId c = Some b ∧ bm_userId b = userId ∧ month b = m.

(** ** Listing transactions: what a query asks *)

(** A page number and a page size the schema of [list] accepts. *)
Definition validPage (v : TransactionsQuery.Coerced) : Prop :=
  v = TransactionsQuery.Absent ∨ ∃ n, v = TransactionsQuery.Integer n ∧ 1 ≤ n.

Definition validLimit (v : TransactionsQuery.Coerced) : Prop :=
  v = TransactionsQuery.Absent ∨ ∃ n, v = TransactionsQuery.Integer n ∧ 1 ≤ n ≤ 100.

(** The same query for another page. *)
Definition withPage (query : TransactionsQuery.Query) (p : Z) : TransactionsQuery.Query :=
  TransactionsQuery.mkQuery (TransactionsQuery.Integer p)
    (TransactionsQuery.q_limit query) (TransactionsQuery.q_accountId query)
    (TransactionsQuery.q_categoryId query) (TransactionsQuery.q_dateFrom query)
    (TransactionsQuery.q_dateTo query).



(** What the filters of a parsed query ask of a row. *)
Definition passesFilters (instant : string → Z) (input : TransactionsQuery.Input)
    (t : Transaction) : Prop :=
  (∀ x, TransactionsQuery.in_accountId input = Some x → x ≠ "" → accountId t = x) ∧
  (∀ c, TransactionsQuery.in_categoryId input = Some c → c ≠ "" → categoryId t = Some c) ∧
  (∀ d, TransactionsQuery.in_dateFrom input = Some d → d ≠ "" →
        instant d ≤ instant (date t)) ∧
  (∀ d, TransactionsQuery.in_dateTo input = Some d → d ≠ "" →
        instant (date t) ≤ instant d).

(** ** src/server.js *)

Module Server.
Section WithClient.

(** The [message] of an error of the database client, by its code. *)
Variable prismaMessage : string → string.

(** [text.includes(part)] *)
Fixpoint includes (part text : string) : bool :=
  String.prefix part text ||
  match text with
  | EmptyString => false
  | String _ rest => includes part rest
  end.

(** The bodies the error handler sends: [{ error: 'Validation failed',
    details }], whose details the model of a schema error does not carry,
    and [{ error }]. *)
Inductive ErrorBody : Type :=
  | ValidationFailed
  | ErrorMessage (error : string).

(** What the error handler sends for an error that is not a schema
    error, by its message. *)
Definition answerOf (message : string) : Reply ErrorBody :=
  if includes "not found" message then mkReply 404 (ErrorMessage message)
  else if includes "exceeds available" message then mkReply 422 (ErrorMessage message)
  else mkReply 500 (ErrorMessage "Internal server error").

(** The error-handling middleware, the last [app.use]. *)
Definition errorHandler (err : Exn) : Reply ErrorBody :=
  match err with
  | ZodError => mkReply 400 ValidationFailed
  | Error msg => answerOf msg
  | PrismaError code => answerOf (prismaMessage code)
  end.

(** [wrap(handler)] around a route that sends the result of its handler:
    a throw goes to the error handler. *)
Definition wrap {A} (result : Exn + A) : Reply ErrorBody + A :=
  match result with
  | inl err => inl (errorHandler err)
  | inr sent => inr sent
  end.

Definition route {A} (handler : Db → (Exn + A) * Db) (db : Db) : (Reply ErrorBody + A) * Db :=
  let '(result, db') := handler db in (wrap result, db').

Definition patch_transactions (userId id : string) (payload : PatchInput) :=
  route (patch userId id payload).
Definition delete_transactions (userId id : string) :=
  route (remove userId id).

(** [GET /api/categories], [POST /api/categories] and
    [POST /api/categories/:id/assign] *)
Definition get_categories (newDate : string → option string) (userId monthString : string)
    (db : Db) :=
  wrap (Categories.list newDate userId monthString db).
Definition post_categories (newDate : string → option string) (gen : Categories.Generated)
    (userId monthString : string) (payload : Categories.CreatePayload) :=
  route (Categories.create newDate gen userId monthString payload).
Definition post_categories_assign (newDate : string → option string)
    (userId monthString id : string) (payload : Categories.AssignPayload) :=
  route (Categories.assign newDate userId monthString id payload).

End WithClient.
End Server.

(** A client whose errors carry no text. *)
Definition silentClient (code : string) : string := "".

(** A date parser that rejects every text. *)
Definition noDate (text : string) : option string := None.

(** ** src/api/auth.js *)

Module Auth.

(** A row of the user table, by id. *)
Record User := mkUser {
  user_email : string;
  user_password : string;
  user_createdAt : string
}.

Definition Users : Type := gmap string User.

(** [{ email, password }], both strings. *)
Record Credentials := mkCredentials { cr_email : string; cr_password : string }.

(** The payload of a token, [{ sub, email }], and what verifying a token
    returns: the payload with its issue and expiry times. *)
Record Claims := mkClaims { sub : string; email : string }.
Record Verified := mkVerified { v_claims : Claims; v_iat : Z; v_exp : Z }.

(** What the database and the hashing library fill in on [register]: the
    key and creation time of the row, the salt of the hash. *)
Record Generated := mkGenerated {
  gen_id : string;
  gen_createdAt : string;
  gen_salt : string
}.

Inductive AuthBody : Type :=
  | Failed (error : string)
  | Registered (id email createdAt : string)
  | LoggedIn (token : string).

(** [prisma.user.findUnique({ where: { email } })] *)
Definition user_findUnique (address : string) (users : Users) : option (string * User) :=
  snd <$> list_find (λ ku : string * User, user_email ku.2 = address) (map_to_list users).

(** [prisma.user.create({ data })]: the key and the email are unique. *)
Definition user_create (id : string) (row : User) (users : Users) : Exn + Users :=
  match users !! id with
  | Some _ => inl (PrismaError "P2002")
  | None =>
    match user_findUnique (user_email row) users with
    | Some _ => inl (PrismaError "P2002")
    | None => inr (<[id := row]> users)
    end
  end.

(** [auth.slice(n)] *)
Fixpoint slice (n : nat) (text : string) : string :=
  match n, text with
  | O, _ => text
  | S n', String _ rest => slice n' rest
  | S _, EmptyString => EmptyString
  end.

Section WithLibraries.

(** [z.string().email()] *)
Variable isEmail : string → bool.
(** [bcrypt.hash(password, 10)] with the salt it draws, and
    [bcrypt.compare(password, hash)]. *)
Variable bcrypt_hash : string → string → string.
Variable bcrypt_compare : string → string → bool.
(** [jwt.sign(payload, secret, { expiresIn: '1h' })] at a time, and
    [jwt.verify(token, secret)] at a time, [None] when it throws. *)
Variable jwt_sign : Claims → string → Z → string.
Variable jwt_verify : string → string → Z → option Verified.

(** [registerSchema], which is [loginSchema] too. *)
Definition registerSchema_parse (payload : Credentials) : Exn + Credentials :=
  if isEmail (cr_email payload) && (8 <=? String.length (cr_password payload))%nat
  then inr payload else inl ZodError.

Definition loginSchema_parse : Credentials → Exn + Credentials := registerSchema_parse.

(** [getJwtSecret()], given [process.env.JWT_SECRET]. *)
Definition getJwtSecret (env : option string) : string :=
  if truthy env then default "" env else "dev-secret".

(** [register(payload)] *)
Definition register (gen : Generated) (payload : Credentials) (users : Users)
    : (Exn + Reply AuthBody) * Users :=
  match registerSchema_parse payload with
  | inl e => (inl e, users)
  | inr input =>
    match user_findUnique (cr_email input) users with
    | Some _ => (inr (mkReply 409 (Failed "Email already registered")), users)
    | None =>
      let password := bcrypt_hash (gen_salt gen) (cr_password input) in
      match user_create (gen_id gen)
              (mkUser (cr_email input) password (gen_createdAt gen)) users with
      | inl e => (inl e, users)
      | inr users' =>
        (inr (mkReply 201 (Registered (gen_id gen) (cr_email input) (gen_createdAt gen))),
         users')
      end
    end
  end.

(** [login(payload)], given the environment and the time. *)
Definition login (env : option string) (now : Z) (payload : Credentials) (users : Users)
    : Exn + Reply AuthBody :=
  match loginSchema_parse payload with
  | inl e => inl e
  | inr input =>
    match user_findUnique (cr_email input) users with
    | None => inr (mkReply 401 (Failed "Invalid credentials"))
    | Some (id, user) =>
      if bcrypt_compare (cr_password input) (user_password user) then
        inr (mkReply 200
               (LoggedIn (jwt_sign (mkClaims id (user_email user)) (getJwtSecret env) now)))
      else inr (mkReply 401 (Failed "Invalid credentials"))
    end
  end.

(** [verifyJwt(req, res, next)], given the [authorization] header: the
    answer it sends, or the [req.user] it passes on. *)
Definition verifyJwt (env : option string) (now : Z) (authorization : option string)
    : Reply AuthBody + Verified :=
  match authorization with
  | Some auth =>
    if String.prefix "Bearer " auth then
      match jwt_verify (slice 7 auth) (getJwtSecret env) now with
      | Some user => inr user
      | None => inl (mkReply 401 (Failed "Invalid token"))
      end
    else inl (mkReply 401 (Failed "Missing token"))
  | None => inl (mkReply 401 (Failed "Missing token"))
  end.

End WithLibraries.
End Auth.

(** No two users share an email: the unique key of the user table. *)
Definition uniqueEmails (users : Auth.Users) : Prop :=
  ∀ id1 id2 u1 u2, users !! id1 = Some u1 → users !! id2 = Some u2 →
                   Auth.user_email u1 = Auth.user_email u2 → id1 = id2.

(** Stand-ins for the libraries in concrete runs: every text but the empty
    one is an email, a hash is the password behind a fixed prefix, a token
    is the [sub] of its payload. *)
Definition toyEmail (text : string) : bool := negb (String.eqb text "").
Definition toyHash (salt password : string) : string := "$2a$" ++ password.
Definition toyCompare (password hashed : string) : bool :=
  String.eqb hashed ("$2a$" ++ password).
Definition toySign (claims : Auth.Claims) (secret : string) (now : Z) : string :=
  Auth.sub claims.
Definition toyVerify (token secret : string) (now : Z) : option Auth.Verified :=
  Some (Auth.mkVerified (Auth.mkClaims token "demo@example.com") 0 3600).

Definition demo : Auth.Credentials := Auth.mkCredentials "demo@example.com" "password123".
Definition genU1 : Auth.Generated := Auth.mkGenerated "u1" "2026-01-01T00:00:00.000Z" "salt".

(** ** More concrete stores and requests *)

(** A second generated key, a spend a day later, and [scenarioDb] after
    the two spends. *)
Definition gen2 : Generated := mkGenerated "t2" false.

Definition laterSpend : CreateInput :=
  mkCreateInput "A" (Value "c") "2026-01-06T00:00:00.000Z" Undefined 5 Undefined None.

Definition twoRowsDb : Db :=
  run [OpCreate gen1 "u1" (spendOnA 10); OpCreate gen2 "u1" laterSpend] scenarioDb.

(** [{ memo: "lunch" }] *)
Definition patchMemo : PatchInput :=
  mkPatchInput None Undefined None Undefined None (Value "lunch") None.

(** The day of January 2026 a date of the concrete requests falls on. *)
Definition dayOf (text : string) : Z :=
  if String.eqb text "2026-01-05T00:00:00.000Z" then 5
  else if String.eqb text "2026-01-06T00:00:00.000Z" then 6
  else 0.

(** [?limit=1] *)
Definition onePerPage : TransactionsQuery.Query :=
  TransactionsQuery.mkQuery TransactionsQuery.Absent (TransactionsQuery.Integer 1)
    None None None None.

(** * Proofs *)

(** ** Sums over the transaction table *)

Lemma sumOver_empty f : sumOver f ∅ = 0.
Proof. unfold sumOver. by rewrite map_fold_empty. Qed.

Lemma sumOver_insert_fresh f (txs : gmap string Transaction) i t :
  txs !! i = None → sumOver f (<[i := t]> txs) = f t + sumOver f txs.
Proof.
  intros Hi. unfold sumOver.
  rewrite map_fold_insert_L; [done | | done].
  intros. lia.
Qed.

Lemma sumOver_delete f (txs : gmap string Transaction) i t :
  txs !! i = Some t → sumOver f (delete i txs) = sumOver f txs - f t.
Proof.
  intros Hi. unfold sumOver.
  rewrite (map_fold_delete_L _ _ i t txs); [lia | | done].
  intros. lia.
Qed.

Lemma sumOver_insert_existing f (txs : gmap string Transaction) i t t' :
  txs !! i = Some t → sumOver f (<[i := t']> txs) = sumOver f txs - f t + f t'.
Proof.
  intros Hi. rewrite <- (insert_delete_eq txs i t').
  rewrite sumOver_insert_fresh by apply lookup_delete_eq.
  rewrite (sumOver_delete f txs i t Hi). lia.
Qed.

Lemma truthy_ofColumn (v : option string) : truthy (toColumn (ofColumn v)) = truthy v.
Proof. by destruct v. Qed.

(** ** Running the store calls *)

Lemma bind_run {A B} (m : Tx A) (f : A → Tx B) db :
  (m ≫= f) db = match m db with inl e => inl e | inr (a, db') => f a db' end.
Proof. reflexivity. Qed.

Ltac tx_red :=
  unfold mbind, Tx_bind, mret, Tx_ret, getDb, modifyDb, throw in *; cbn beta iota in *.

Lemma category_findFirst_ofUser_run id u db :
  ∃ o, Prisma.category_findFirst_ofUser id u db = inr (o, db) ∧
       (∀ c, o = Some c ↔ categoryOf db u id c).
Proof.
  unfold Prisma.category_findFirst_ofUser, categoryOf. tx_red.
  destruct (categories db !! id) as [c|] eqn:Hc.
  - destruct (budgetMonths db !! budgetMonthId c) as [b|] eqn:Hb.
    + destruct (decide (bm_userId b = u)) as [Hu|Hu]; eexists; (split; [reflexivity|]); intros c'.
      * split; [intros [= <-]; eauto|]. by intros [[= <-] _].
      * split; [done|]. intros [[= <-] (b' & ? & ?)]. congruence.
    + eexists. split; [reflexivity|]. intros c'. split; [done|].
      intros [[= <-] (b' & ? & ?)]. congruence.
  - eexists. split; [reflexivity|]. intros c'. split; [done|]. by intros [? _].
Qed.

(** ** The spend contribution *)

Lemma spendingAmount_present categoryId amount :
  present categoryId → 0 < amount → spendingAmount categoryId amount = amount.
Proof.
  intros (c & -> & Hc) Hpos. unfold spendingAmount. cbn.
  apply String.eqb_neq in Hc. rewrite Hc. cbn.
  by destruct (Z.ltb_spec 0 amount); [|lia].
Qed.

Lemma spendingAmount_zero categoryId amount :
  ¬ (present categoryId ∧ 0 < amount) → spendingAmount categoryId amount = 0.
Proof.
  intros Hn. unfold spendingAmount.
  destruct (truthy (toColumn categoryId)) eqn:Ht; [|done].
  destruct (Z.ltb_spec 0 amount); [|done]. exfalso. apply Hn. split; [|done].
  destruct categoryId as [| |c]; try discriminate. exists c. split; [done|].
  cbn in Ht. intros ->. discriminate.
Qed.

(** An empty id names no category: the code tests the id for truthiness. *)
Lemma spendingAmount_empty_id amount : spendingAmount (Value "") amount = 0.
Proof. reflexivity. Qed.

Lemma spendingAmount_nonneg categoryId amount : 0 ≤ spendingAmount categoryId amount.
Proof.
  unfold spendingAmount. destruct (truthy _); cbn; [|done].
  destruct (Z.ltb_spec 0 amount); lia.
Qed.

Lemma insert_as_alter {A} (f : A → A) (m : gmap string A) i x :
  m !! i = Some x → <[i := f x]> m = alter f i m.
Proof.
  intros Hi. apply map_eq. intros j.
  destruct (decide (i = j)) as [<-|Hne].
  - by rewrite lookup_insert_eq, lookup_alter_eq, Hi.
  - by rewrite lookup_insert_ne, lookup_alter_ne.
Qed.

Lemma account_incrementBalance_run id by_ db :
  Prisma.account_incrementBalance id by_ db =
    match accounts db !! id with
    | Some _ => inr (tt, creditBalance id by_ db)
    | None => inl (PrismaError "P2025")
    end.
Proof.
  unfold Prisma.account_incrementBalance, creditBalance, setAccounts. tx_red.
  destruct (accounts db !! id) eqn:Ha; [|done]. by rewrite (insert_as_alter _ _ _ _ Ha).
Qed.

Lemma category_incrementSpent_run id by_ db :
  Prisma.category_incrementSpent id by_ db =
    match categories db !! id with
    | Some _ => inr (tt, creditSpent (Some id) by_ db)
    | None => inl (PrismaError "P2025")
    end.
Proof.
  unfold Prisma.category_incrementSpent, creditSpent, moveSpent, setCategories. tx_red.
  destruct (categories db !! id) eqn:Hc; [|done]. by rewrite (insert_as_alter _ _ _ _ Hc).
Qed.

Lemma transaction_create_run id row db :
  Prisma.transaction_create id row db =
    match transactions db !! id with
    | Some _ => inl (PrismaError "P2002")
    | None => inr (tt, setTransactions <[id := row]> db)
    end.
Proof. unfold Prisma.transaction_create. tx_red. by destruct (transactions db !! id). Qed.

Lemma transaction_update_run id row db :
  Prisma.transaction_update id row db =
    match transactions db !! id with
    | Some _ => inr (tt, setTransactions <[id := row]> db)
    | None => inl (PrismaError "P2025")
    end.
Proof. unfold Prisma.transaction_update. tx_red. by destruct (transactions db !! id). Qed.

Lemma transaction_delete_run id db :
  Prisma.transaction_delete id db =
    match transactions db !! id with
    | Some _ => inr (tt, setTransactions (delete id) db)
    | None => inl (PrismaError "P2025")
    end.
Proof. unfold Prisma.transaction_delete. tx_red. by destruct (transactions db !! id). Qed.

(** ** The availability check *)

Lemma present_truthy categoryId :
  truthy (toColumn categoryId) = true ↔ present categoryId.
Proof.
  unfold present. destruct categoryId as [| |c]; cbn.
  - split; [done|]. by intros (? & ? & ?).
  - split; [done|]. by intros (? & ? & ?).
  - rewrite negb_true_iff, String.eqb_neq. split.
    + intros Hc. by exists c.
    + by intros (c' & [= <-] & ?).
Qed.

(** The check writes nothing. *)
Lemma ensureCategoryAvailability_frame userId categoryId spend previous db x db' :
  ensureCategoryAvailability userId categoryId spend previous db = inr (x, db') → db' = db.
Proof.
  unfold ensureCategoryAvailability.
  destruct (negb _ || _); [tx_red; congruence|].
  rewrite bind_run.
  destruct (category_findFirst_ofUser_run (default "" (toColumn categoryId)) userId db)
    as (o & -> & _).
  destruct o as [c|]; [|done].
  destruct (_ <? _); tx_red; congruence.
Qed.

(** Nothing to check: no category, or nothing spent. *)
Lemma ensureCategoryAvailability_skip userId categoryId spend previous db :
  ¬ (present categoryId ∧ 0 < spend) →
  ensureCategoryAvailability userId categoryId spend previous db = inr (tt, db).
Proof.
  intros Hn. unfold ensureCategoryAvailability.
  destruct (truthy (toColumn categoryId)) eqn:Ht; [|done].
  destruct (Z.leb_spec spend 0); [done|].
  exfalso. apply Hn. by rewrite <- present_truthy.
Qed.


(** The only [Error]s the check throws. *)
Lemma ensureCategoryAvailability_throws userId categoryId spend previous db e :
  ensureCategoryAvailability userId categoryId spend previous db = inl e →
  e = Error "Category not found" ∨ e = Overextended.
Proof.
  unfold ensureCategoryAvailability.
  destruct (negb _ || _); [tx_red; congruence|].
  rewrite bind_run.
  destruct (category_findFirst_ofUser_run (default "" (toColumn categoryId)) userId db)
    as (o & -> & _).
  destruct o as [c|]; [|tx_red; intros [= <-]; by left].
  destruct (_ <? _); tx_red; [intros [= <-]; by right|congruence].
Qed.

(** ** The handlers as decision trees *)

Lemma addSpent_zero c : addSpent 0 c = c.
Proof. destruct c. unfold addSpent. cbn. f_equal. lia. Qed.

Lemma moveSpent_zero categoryId cats : moveSpent categoryId 0 cats = cats.
Proof.
  destruct categoryId as [c|]; [|done]. cbn.
  apply alter_id. intros. apply addSpent_zero.
Qed.

Lemma creditSpent_zero categoryId db : creditSpent categoryId 0 db = db.
Proof. unfold creditSpent, setCategories. rewrite moveSpent_zero. by destruct db. Qed.

Lemma spendingAmount_truthy categoryId amount :
  0 < spendingAmount categoryId amount → truthy (toColumn categoryId) = true.
Proof. unfold spendingAmount. destruct (truthy _); [done|]. cbn. lia. Qed.

(** [updateSpent] either writes the increment or is rejected. *)
Lemma updateSpent_run categoryId by_ db :
  updateSpent categoryId by_ db =
    match categoryId ≫= (categories db !!.) with
    | Some _ => inr (tt, creditSpent categoryId by_ db)
    | None => inl (PrismaError "P2025")
    end.
Proof.
  destruct categoryId as [c|]; cbn; [|done].
  apply category_incrementSpent_run.
Qed.

(** The guarded spend write of [patch] and [remove]:
    [if (categoryId && spend > 0) update(... by)], where [by] is the spend
    or its opposite. *)
Lemma guardedSpent_run (categoryId : option string) amount by_ db :
  let spend := spendingAmount (ofColumn categoryId) amount in
  by_ = spend ∨ by_ = - spend →
  (if truthy categoryId && (0 <? spend) then updateSpent categoryId by_ else mret tt) db =
    if decide (0 < spend ∧ categoryId ≫= (categories db !!.) = None)
    then inl (PrismaError "P2025")
    else inr (tt, creditSpent categoryId by_ db).
Proof.
  intros spend Hby.
  pose proof (spendingAmount_nonneg (ofColumn categoryId) amount) as Hnn.
  pose proof (spendingAmount_truthy (ofColumn categoryId) amount) as Htr.
  rewrite truthy_ofColumn in Htr. fold spend in Hnn, Htr.
  destruct (Z.ltb_spec 0 spend) as [Hpos|Hle].
  - rewrite (Htr Hpos). cbn [andb]. rewrite updateSpent_run.
    destruct (categoryId ≫= _) eqn:Hc.
    + rewrite decide_False; [done|]. by intros [_ ?].
    + by rewrite decide_True.
  - rewrite andb_false_r. rewrite decide_False by lia.
    assert (by_ = 0) as -> by lia. by rewrite creditSpent_zero.
Qed.

Lemma account_findFirst_eq id u db :
  Prisma.account_findFirst id u db =
    inr (match accounts db !! id with
         | Some a => if decide (acc_userId a = u) then Some a else None
         | None => None
         end, db).
Proof. reflexivity. Qed.

Lemma transaction_findFirst_eq id u db :
  Prisma.transaction_findFirst id u db =
    inr (match transactions db !! id with
         | Some t =>
             match accounts db !! accountId t with
             | Some a => if decide (acc_userId a = u) then Some t else None
             | None => None
             end
         | None => None
         end, db).
Proof. reflexivity. Qed.

(** The spend write of [create]: [if (spend > 0) update(...)]. *)
Lemma createSpent_run (categoryId : JsOpt string) amount db :
  let spend := spendingAmount categoryId amount in
  (if 0 <? spend then updateSpent (toColumn categoryId) spend else mret tt) db =
    if decide (0 < spend ∧ toColumn categoryId ≫= (categories db !!.) = None)
    then inl (PrismaError "P2025")
    else inr (tt, creditSpent (toColumn categoryId) spend db).
Proof.
  intros spend.
  destruct (Z.ltb_spec 0 spend) as [Hpos|Hle].
  - rewrite updateSpent_run.
    destruct (toColumn categoryId ≫= _) eqn:Hc.
    + rewrite decide_False; [done|]. by intros [_ ?].
    + by rewrite decide_True.
  - rewrite decide_False by lia.
    pose proof (spendingAmount_nonneg categoryId amount).
    assert (spend = 0) as -> by (unfold spend; lia). by rewrite creditSpent_zero.
Qed.

Lemma create_run gen userId payload db :
  create gen userId payload db =
    let spend := spendingAmount (ci_categoryId payload) (ci_amount payload) in
    if String.eqb (ci_accountId payload) "" then (inl ZodError, db) else
    match accounts db !! ci_accountId payload with
    | None => (inr (notFound "Account not found"), db)
    | Some a =>
      if decide (acc_userId a = userId) then
        match ensureCategoryAvailability userId (ci_categoryId payload) spend 0 db with
        | inl e => (inl e, db)
        | inr _ =>
          match transactions db !! gen_id gen with
          | Some _ => (inl (PrismaError "P2002"), db)
          | None =>
            if decide (0 < spend ∧
                       toColumn (ci_categoryId payload) ≫= (categories db !!.) = None)
            then (inl (PrismaError "P2025"), db)
            else (inr (mkResponse 201 (BTransaction (gen_id gen) (createdRow gen payload))),
                  created gen payload db)
          end
        end
      else (inr (notFound "Account not found"), db)
    end.
Proof.
  unfold create, createSchema_parse. cbn zeta.
  destruct (String.eqb _ _); [done|].
  unfold transaction. rewrite bind_run, account_findFirst_eq.
  destruct (accounts db !! ci_accountId payload) as [a|] eqn:Ha; [|done].
  destruct (decide (acc_userId a = userId)) as [Hu|Hu]; [|done].
  rewrite bind_run.
  destruct (ensureCategoryAvailability _ _ _ _ db) as [e0|[[] db1]] eqn:He; [done|].
  apply ensureCategoryAvailability_frame in He as ->.
  rewrite bind_run, transaction_create_run.
  destruct (transactions db !! gen_id gen); [done|].
  rewrite bind_run, account_incrementBalance_run.
  cbn [accounts setTransactions]. rewrite Ha.
  rewrite bind_run, createSpent_run.
  cbn [categories creditBalance setAccounts setTransactions].
  by destruct (decide _).
Qed.

Lemma remove_run userId transactionId db :
  remove userId transactionId db =
    match transactions db !! transactionId with
    | None => (inr (notFound "Transaction not found"), db)
    | Some existing =>
      match accounts db !! accountId existing with
      | None => (inr (notFound "Transaction not found"), db)
      | Some a =>
        if decide (acc_userId a = userId) then
          if decide (0 < spendingAmount (ofColumn (categoryId existing)) (amount existing) ∧
                     categoryId existing ≫= (categories db !!.) = None)
          then (inl (PrismaError "P2025"), db)
          else (inr (mkResponse 200 BSuccess), removed transactionId existing db)
        else (inr (notFound "Transaction not found"), db)
      end
    end.
Proof.
  unfold remove, transaction. rewrite bind_run, transaction_findFirst_eq.
  destruct (transactions db !! transactionId) as [existing|] eqn:Ht; [|done].
  destruct (accounts db !! accountId existing) as [a|] eqn:Ha; [|done].
  destruct (decide (acc_userId a = userId)) as [Hu|Hu]; [|done].
  cbn zeta. rewrite bind_run, account_incrementBalance_run, Ha.
  rewrite bind_run, (guardedSpent_run _ _ _ _ (or_intror eq_refl)).
  cbn [categories creditBalance setAccounts].
  destruct (decide _); [done|].
  rewrite bind_run, transaction_delete_run.
  cbn [transactions creditSpent setCategories creditBalance setAccounts]. by rewrite Ht.
Qed.

Lemma moveSpent_lookup_None categoryId by_ (cats : gmap string Category) j :
  moveSpent categoryId by_ cats !! j = None ↔ cats !! j = None.
Proof.
  destruct categoryId as [c|]; [|done]. cbn.
  destruct (decide (c = j)) as [<-|Hne].
  - rewrite lookup_alter_eq. by destruct (cats !! c).
  - by rewrite lookup_alter_ne.
Qed.

Lemma patch_run userId transactionId payload db :
  patch userId transactionId payload db =
    match patchSchema_parse payload with
    | inl e => (inl e, db)
    | inr _ =>
      match transactions db !! transactionId with
      | None => (inr (notFound "Transaction not found"), db)
      | Some existing =>
        match accounts db !! accountId existing with
        | None => (inr (notFound "Transaction not found"), db)
        | Some a =>
          if decide (acc_userId a = userId) then
            let next := merge payload existing in
            match ensureCategoryAvailability userId (ofColumn (categoryId next))
                    (spendingAmount (ofColumn (categoryId next)) (amount next))
                    (if decide (categoryId next = categoryId existing)
                     then spendingAmount (ofColumn (categoryId existing)) (amount existing)
                     else 0) db with
            | inl e => (inl e, db)
            | inr _ =>
              if decide (accountId next = accountId existing)
              then patchSpent transactionId existing next db
              else
                match accounts db !! accountId next with
                | None => (inr (notFound "New account not found"),
                           setTransactions <[transactionId := next]> db)
                | Some a' =>
                  if decide (acc_userId a' = userId)
                  then patchSpent transactionId existing next db
                  else (inr (notFound "New account not found"),
                        setTransactions <[transactionId := next]> db)
                end
            end
          else (inr (notFound "Transaction not found"), db)
        end
      end
    end.
Proof.
  unfold patch.
  destruct (patchSchema_parse payload) as [e0|input] eqn:Hparse; [done|].
  assert (input = payload) as ->.
  { unfold patchSchema_parse in Hparse.
    destruct (pi_accountId payload) as [s|]; [destruct (String.eqb s "")|]; congruence. }
  unfold transaction. rewrite bind_run, transaction_findFirst_eq.
  destruct (transactions db !! transactionId) as [existing|] eqn:Ht; [|done].
  destruct (accounts db !! accountId existing) as [a|] eqn:Ha; [|done].
  destruct (decide (acc_userId a = userId)) as [Hu|Hu]; [|done].
  cbn zeta. set (next := merge payload existing).
  rewrite bind_run.
  destruct (ensureCategoryAvailability _ _ _ _ db) as [e0|[[] db1]] eqn:He; [done|].
  apply ensureCategoryAvailability_frame in He as ->.
  rewrite bind_run, transaction_update_run, Ht.
  assert (Hspent : ∀ db2, categories db2 = categories db →
            rebalanced existing next (setTransactions <[transactionId := next]> db) = db2 →
            match
              ((if truthy (categoryId existing) &&
                   (0 <? spendingAmount (ofColumn (categoryId existing)) (amount existing))
                then updateSpent (categoryId existing)
                       (- spendingAmount (ofColumn (categoryId existing)) (amount existing))
                else mret tt) ≫= λ _,
               (if truthy (categoryId next) &&
                   (0 <? spendingAmount (ofColumn (categoryId next)) (amount next))
                then updateSpent (categoryId next)
                       (spendingAmount (ofColumn (categoryId next)) (amount next))
                else mret tt) ≫= λ _,
               mret (mkResponse 200 (BTransaction transactionId next))) db2
            with
            | inl e => (inl e, db)
            | inr (r, db') => (inr r, db')
            end = patchSpent transactionId existing next db).
  { intros db2 Hcats Hdb2. unfold patchSpent, patched. rewrite Hdb2.
    rewrite bind_run, (guardedSpent_run _ _ _ _ (or_intror eq_refl)), Hcats.
    destruct (decide (0 < _ ∧ categoryId existing ≫= _ = None)) as [Hold|Hold].
    { rewrite decide_True; [done|by left]. }
    rewrite bind_run, (guardedSpent_run _ _ _ _ (or_introl eq_refl)).
    cbn [categories creditSpent setCategories]. rewrite Hcats.
    destruct (decide (0 < _ ∧ categoryId next ≫= _ = None)) as [Hnew|Hnew].
    - rewrite decide_True; [done|]. right. destruct Hnew as [? Hnew]. split; [done|].
      destruct (categoryId next) as [c|]; [|done]. cbn in *.
      by apply moveSpent_lookup_None in Hnew.
    - rewrite decide_False; [done|]. intros [?|[? Hnone]]; [done|]. apply Hnew. split; [done|].
      destruct (categoryId next) as [c|]; [|done]. cbn in *.
      by apply moveSpent_lookup_None. }
  destruct (decide (accountId next = accountId existing)) as [Hsame|Hdiff].
  - rewrite bind_run, account_incrementBalance_run.
    cbn [accounts setTransactions]. rewrite Ha.
    apply Hspent; [done|]. unfold rebalanced. by rewrite decide_True.
  - rewrite bind_run, account_findFirst_eq. cbn [accounts setTransactions].
    destruct (accounts db !! accountId next) as [a'|] eqn:Ha'; [|done].
    destruct (decide (acc_userId a' = userId)) as [Hu'|Hu']; [|done].
    rewrite bind_run, account_incrementBalance_run.
    cbn [accounts setTransactions]. rewrite Ha.
    rewrite bind_run, account_incrementBalance_run.
    cbn [accounts creditBalance setAccounts setTransactions].
    rewrite lookup_alter_ne by done. rewrite Ha'.
    apply Hspent; [done|]. unfold rebalanced. by rewrite decide_False.
Qed.

(** ** Spend contribution (C9) *)

Lemma create_categories_zero gen userId payload db :
  spendingAmount (ci_categoryId payload) (ci_amount payload) = 0 →
  categories (create gen userId payload db).2 = categories db.
Proof.
  intros Hz. rewrite create_run. cbn zeta.
  repeat case_match; try done.
  unfold created. by rewrite Hz, creditSpent_zero.
Qed.

Lemma remove_categories_zero userId transactionId db t :
  transactions db !! transactionId = Some t →
  spendingAmount (ofColumn (categoryId t)) (amount t) = 0 →
  categories (remove userId transactionId db).2 = categories db.
Proof.
  intros Ht Hz. rewrite remove_run, Ht.
  repeat case_match; try done.
  unfold removed. rewrite Hz. change (- 0) with 0. by rewrite creditSpent_zero.
Qed.

Lemma patch_categories_zero userId transactionId payload db t :
  transactions db !! transactionId = Some t →
  spendingAmount (ofColumn (categoryId t)) (amount t) = 0 →
  spendingAmount (ofColumn (categoryId (merge payload t))) (amount (merge payload t)) = 0 →
  categories (patch userId transactionId payload db).2 = categories db.
Proof.
  intros Ht Hold Hnew. rewrite patch_run, Ht. cbn zeta. unfold patchSpent.
  repeat case_match; try done;
    unfold patched; rewrite Hold, Hnew; change (- 0) with 0;
    rewrite !creditSpent_zero; unfold rebalanced; repeat case_decide; reflexivity.
Qed.

(** C9. The spend contribution of a transaction is its amount when a
    category is present and the amount is positive, and zero otherwise.
    Hence a transaction that is income (amount not positive) or has no
    category changes no category row: not when it is created, not when it
    is removed, and not when a patch turns such a row into such a row. *)
Theorem spend_contribution :
  (∀ categoryId amount,
     present categoryId → 0 < amount → spendingAmount categoryId amount = amount) ∧
  (∀ categoryId amount,
     ¬ (present categoryId ∧ 0 < amount) → spendingAmount categoryId amount = 0) ∧
  (∀ gen userId payload db,
     ¬ (present (ci_categoryId payload) ∧ 0 < ci_amount payload) →
     categories (create gen userId payload db).2 = categories db) ∧
  (∀ userId transactionId db t,
     transactions db !! transactionId = Some t →
     ¬ (present (ofColumn (categoryId t)) ∧ 0 < amount t) →
     categories (remove userId transactionId db).2 = categories db) ∧
  (∀ userId transactionId payload db t,
     transactions db !! transactionId = Some t →
     ¬ (present (ofColumn (categoryId t)) ∧ 0 < amount t) →
     ¬ (present (ofColumn (categoryId (merge payload t))) ∧ 0 < amount (merge payload t)) →
     categories (patch userId transactionId payload db).2 = categories db).
Proof.
  split; [apply spendingAmount_present|].
  split; [apply spendingAmount_zero|].
  split; [|split].
  - intros. by apply create_categories_zero, spendingAmount_zero.
  - intros. eapply remove_categories_zero; [done|]. by apply spendingAmount_zero.
  - intros. eapply patch_categories_zero; [done|..]; by apply spendingAmount_zero.
Qed.

(** ** Removing what is not there (C8) *)

(** C8. When the transaction id does not name a stored transaction on an
    account of the caller, [remove] answers 404 "Transaction not found" and
    the store is the one it started from; in particular this is the answer
    to a second [remove] after a successful one, for every caller. *)
Theorem remove_not_found userId transactionId db :
  ((∀ t, ¬ transactionOf db userId transactionId t) →
   remove userId transactionId db = (inr (notFound "Transaction not found"), db)) ∧
  (∀ r db',
     remove userId transactionId db = (inr r, db') → status r = 200 →
     ∀ caller,
       remove caller transactionId db' = (inr (notFound "Transaction not found"), db')).
Proof.
  split.
  - intros Hnone. rewrite remove_run.
    destruct (transactions db !! transactionId) as [t|] eqn:Ht; [|done].
    destruct (accounts db !! accountId t) as [a|] eqn:Ha; [|done].
    destruct (decide (acc_userId a = userId)) as [Hu|Hu]; [|done].
    destruct (Hnone t). split; [done|]. by exists a.
  - intros r db' Hrun Hok caller. rewrite remove_run in Hrun.
    assert (transactions db' !! transactionId = None) as Hgone.
    { repeat case_match; simplify_eq; try discriminate.
      unfold removed. cbn. apply lookup_delete_eq. }
    by rewrite remove_run, Hgone.
Qed.

(** ** Create, then remove (C7) *)

(** What a 201 from [create] tells. *)
Lemma create_201 gen userId payload db r db1 :
  create gen userId payload db = (inr r, db1) → status r = 201 →
  ∃ a, accounts db !! ci_accountId payload = Some a ∧ acc_userId a = userId ∧
       transactions db !! gen_id gen = None ∧
       (0 < spendingAmount (ci_categoryId payload) (ci_amount payload) →
        is_Some (toColumn (ci_categoryId payload) ≫= (categories db !!.))) ∧
       r = mkResponse 201 (BTransaction (gen_id gen) (createdRow gen payload)) ∧
       db1 = created gen payload db.
Proof.
  rewrite create_run. cbn zeta. intros Hrun Hok.
  destruct (String.eqb _ _); [done|].
  destruct (accounts db !! ci_accountId payload) as [a|]; [|by simplify_eq].
  destruct (decide (acc_userId a = userId)) as [Hu|Hu]; [|by simplify_eq].
  destruct (ensureCategoryAvailability _ _ _ _ db); [done|].
  destruct (transactions db !! gen_id gen); [done|].
  destruct (decide _) as [Hmiss|Hhave]; [done|].
  simplify_eq. exists a. repeat split; try done.
  intros Hpos. destruct (toColumn _ ≫= _) eqn:Hc; [done|]. destruct Hhave. by split.
Qed.

Lemma addBalance_cancel by_ a : addBalance by_ (addBalance (- by_) a) = a.
Proof. destruct a. unfold addBalance. cbn. f_equal. lia. Qed.

Lemma addSpent_cancel by_ c : addSpent (- by_) (addSpent by_ c) = c.
Proof. destruct c. unfold addSpent. cbn. f_equal. lia. Qed.

Lemma moveSpent_cancel categoryId by_ cats :
  moveSpent categoryId (- by_) (moveSpent categoryId by_ cats) = cats.
Proof.
  destruct categoryId as [c|]; [|done]. cbn.
  rewrite alter_alter_eq. apply alter_id. intros. apply addSpent_cancel.
Qed.

(** C7. After a successful [create], removing the created transaction
    right away succeeds and gives back the store the [create] started from:
    the balance of the account and the spent total of the category (and
    every other row) are what they were. *)
Theorem create_remove_roundtrip gen userId payload db r db1 :
  create gen userId payload db = (inr r, db1) → status r = 201 →
  remove userId (gen_id gen) db1 = (inr (mkResponse 200 BSuccess), db).
Proof.
  intros Hrun Hok.
  destruct (create_201 _ _ _ _ _ _ Hrun Hok) as (a & Ha & Hu & Hfresh & Hcat & -> & ->).
  rewrite remove_run. unfold created at 1.
  cbn [transactions creditSpent creditBalance setCategories setAccounts setTransactions].
  rewrite lookup_insert_eq.
  unfold created at 1.
  cbn [accounts creditSpent creditBalance setCategories setAccounts setTransactions
       accountId createdRow].
  rewrite lookup_alter_eq, Ha. cbn [fmap option_fmap option_map addBalance acc_userId].
  rewrite decide_True by done.
  cbn [categoryId amount createdRow].
  assert (spendingAmount (ofColumn (toColumn (ci_categoryId payload))) (ci_amount payload)
          = spendingAmount (ci_categoryId payload) (ci_amount payload)) as Hspend.
  { unfold spendingAmount. by rewrite truthy_ofColumn. }
  rewrite Hspend.
  rewrite decide_False; cycle 1.
  { intros [Hpos Hnone]. destruct (Hcat Hpos) as [c Hc].
    unfold created in Hnone. cbn [categories creditSpent setCategories] in Hnone.
    destruct (toColumn (ci_categoryId payload)) as [cid|]; [|done]. cbn in Hnone, Hc.
    apply lookup_alter_None in Hnone. congruence. }
  f_equal. unfold removed, created.
  cbn [categoryId amount accountId createdRow]. rewrite Hspend.
  destruct db as [accs bms cats txs].
  unfold creditSpent, creditBalance, setCategories, setAccounts, setTransactions. cbn.
  cbn in Ha, Hfresh. f_equal.
  - rewrite alter_alter_eq. apply alter_id. intros. apply addBalance_cancel.
  - apply moveSpent_cancel.
  - by apply delete_insert_id.
Qed.

(** ** The availability rule (C4, C6) *)






(** ** How the committed writes move the four quantities *)

Lemma balanceOf_creditBalance x by_ db id :
  is_Some (accounts db !! x) →
  balanceOf (creditBalance x by_ db) id =
  balanceOf db id + (if decide (x = id) then by_ else 0).
Proof.
  intros [a Ha]. unfold balanceOf, creditBalance. cbn [accounts setAccounts].
  rewrite lookup_alter. destruct (decide (x = id)) as [<-|Hne]; [|lia].
  by rewrite Ha.
Qed.

Lemma balanceOf_creditSpent c by_ db id :
  balanceOf (creditSpent c by_ db) id = balanceOf db id.
Proof. reflexivity. Qed.

Lemma balanceOf_setTransactions f db id :
  balanceOf (setTransactions f db) id = balanceOf db id.
Proof. reflexivity. Qed.

Lemma spentOf_creditSpent (c : option string) by_ db id :
  (by_ ≠ 0 → is_Some (c ≫= (categories db !!.))) →
  spentOf (creditSpent c by_ db) id =
  spentOf db id + (if decide (c = Some id) then by_ else 0).
Proof.
  intros Hc. destruct (decide (by_ = 0)) as [->|Hby].
  { rewrite creditSpent_zero. destruct (decide _); lia. }
  destruct (Hc Hby) as [cat Hcat].
  destruct c as [c|]; [|done]. cbn in Hcat.
  unfold spentOf, creditSpent. cbn [categories setCategories moveSpent].
  rewrite lookup_alter. destruct (decide (c = id)) as [<-|Hne].
  - rewrite decide_True by done. by rewrite Hcat.
  - rewrite decide_False by congruence. lia.
Qed.

Lemma spentOf_creditBalance x by_ db id :
  spentOf (creditBalance x by_ db) id = spentOf db id.
Proof. reflexivity. Qed.

Lemma spentOf_setTransactions f db id :
  spentOf (setTransactions f db) id = spentOf db id.
Proof. reflexivity. Qed.

Lemma categories_creditSpent_is_Some (c : option string) by_ db id :
  is_Some (categories (creditSpent c by_ db) !! id) ↔ is_Some (categories db !! id).
Proof.
  unfold creditSpent. cbn [categories setCategories].
  destruct c as [c|]; [|done]. apply lookup_alter_is_Some.
Qed.

Lemma rebalanced_balanceOf existing next db id :
  is_Some (accounts db !! accountId existing) →
  is_Some (accounts db !! accountId next) →
  balanceOf (rebalanced existing next db) id =
  balanceOf db id + amountOn id existing - amountOn id next.
Proof.
  intros Hold Hnew. unfold rebalanced, amountOn.
  destruct (decide (accountId next = accountId existing)) as [Heq|Hne].
  - rewrite balanceOf_creditBalance by done. rewrite Heq.
    destruct (decide (accountId existing = id)); lia.
  - rewrite balanceOf_creditBalance
      by (by apply lookup_alter_is_Some).
    rewrite balanceOf_creditBalance by done.
    destruct (decide (accountId existing = id)), (decide (accountId next = id)); lia.
Qed.

Lemma rebalanced_accounts_is_Some existing next db id :
  is_Some (accounts (rebalanced existing next db) !! id) ↔ is_Some (accounts db !! id).
Proof.
  unfold rebalanced. destruct (decide _); unfold creditBalance; cbn [accounts setAccounts];
    by rewrite ?lookup_alter_is_Some.
Qed.

Lemma rebalanced_categories existing next db :
  categories (rebalanced existing next db) = categories db.
Proof. unfold rebalanced. by destruct (decide _). Qed.

Lemma rebalanced_transactions existing next db :
  transactions (rebalanced existing next db) = transactions db.
Proof. unfold rebalanced. by destruct (decide _). Qed.

Lemma spendOn_createdRow gen payload c :
  spendOn c (createdRow gen payload) =
  if decide (toColumn (ci_categoryId payload) = Some c)
  then spendingAmount (ci_categoryId payload) (ci_amount payload) else 0.
Proof.
  unfold spendOn. cbn [categoryId amount createdRow].
  destruct (decide _); [|done]. unfold spendingAmount. by rewrite truthy_ofColumn.
Qed.

Lemma created_offsets gen payload db :
  is_Some (accounts db !! ci_accountId payload) →
  transactions db !! gen_id gen = None →
  (0 < spendingAmount (ci_categoryId payload) (ci_amount payload) →
   is_Some (toColumn (ci_categoryId payload) ≫= (categories db !!.))) →
  (∀ id, balanceOffset (created gen payload db) id = balanceOffset db id) ∧
  (∀ id, spentOffset (created gen payload db) id = spentOffset db id).
Proof.
  intros Ha Hfresh Hc.
  pose proof (spendingAmount_nonneg (ci_categoryId payload) (ci_amount payload)) as Hnn.
  assert (∀ f, sumOver f (transactions (created gen payload db)) =
               f (createdRow gen payload) + sumOver f (transactions db)) as Hsum.
  { intros f. unfold created. cbn. by apply sumOver_insert_fresh. }
  split; intros id.
  - unfold balanceOffset, accountTotal. rewrite Hsum. unfold created.
    rewrite balanceOf_creditSpent, balanceOf_creditBalance by done.
    rewrite balanceOf_setTransactions. unfold amountOn at 1.
    cbn [accountId amount createdRow]. destruct (decide _); lia.
  - unfold spentOffset, categoryTotal. rewrite Hsum, spendOn_createdRow. unfold created.
    rewrite spentOf_creditSpent by (intros; apply Hc; lia).
    rewrite spentOf_creditBalance, spentOf_setTransactions.
    destruct (decide _); lia.
Qed.

Lemma removed_offsets transactionId existing db :
  transactions db !! transactionId = Some existing →
  is_Some (accounts db !! accountId existing) →
  (0 < spendingAmount (ofColumn (categoryId existing)) (amount existing) →
   is_Some (categoryId existing ≫= (categories db !!.))) →
  (∀ id, balanceOffset (removed transactionId existing db) id = balanceOffset db id) ∧
  (∀ id, spentOffset (removed transactionId existing db) id = spentOffset db id).
Proof.
  intros Ht Ha Hc.
  pose proof (spendingAmount_nonneg (ofColumn (categoryId existing)) (amount existing)) as Hnn.
  assert (∀ f, sumOver f (transactions (removed transactionId existing db)) =
               sumOver f (transactions db) - f existing) as Hsum.
  { intros f. unfold removed. cbn. by apply sumOver_delete. }
  split; intros id.
  - unfold balanceOffset, accountTotal. rewrite Hsum. unfold removed.
    rewrite balanceOf_setTransactions, balanceOf_creditSpent.
    rewrite balanceOf_creditBalance by done. unfold amountOn.
    destruct (decide _); lia.
  - unfold spentOffset, categoryTotal. rewrite Hsum. unfold removed.
    rewrite spentOf_setTransactions.
    rewrite spentOf_creditSpent by (intros; apply Hc; lia).
    rewrite spentOf_creditBalance. unfold spendOn.
    destruct (decide _); lia.
Qed.

Lemma patched_offsets transactionId existing next db :
  transactions db !! transactionId = Some existing →
  is_Some (accounts db !! accountId existing) →
  is_Some (accounts db !! accountId next) →
  (0 < spendingAmount (ofColumn (categoryId existing)) (amount existing) →
   is_Some (categoryId existing ≫= (categories db !!.))) →
  (0 < spendingAmount (ofColumn (categoryId next)) (amount next) →
   is_Some (categoryId next ≫= (categories db !!.))) →
  (∀ id, balanceOffset (patched transactionId existing next db) id = balanceOffset db id) ∧
  (∀ id, spentOffset (patched transactionId existing next db) id = spentOffset db id).
Proof.
  intros Ht Hold Hnew Hcold Hcnew.
  pose proof (spendingAmount_nonneg (ofColumn (categoryId existing)) (amount existing)) as Hnn.
  pose proof (spendingAmount_nonneg (ofColumn (categoryId next)) (amount next)) as Hnn'.
  assert (∀ f, sumOver f (transactions (patched transactionId existing next db)) =
               sumOver f (transactions db) - f existing + f next) as Hsum.
  { intros f. unfold patched. cbn [transactions creditSpent setCategories].
    rewrite rebalanced_transactions. cbn. by apply sumOver_insert_existing. }
  split; intros id.
  - unfold balanceOffset, accountTotal. rewrite Hsum. unfold patched.
    rewrite !balanceOf_creditSpent, rebalanced_balanceOf by done.
    rewrite balanceOf_setTransactions. lia.
  - unfold spentOffset, categoryTotal. rewrite Hsum. unfold patched.
    rewrite spentOf_creditSpent; cycle 1.
    { intros Hne. cbn [categories creditSpent setCategories].
      rewrite rebalanced_categories. cbn [categories setTransactions].
      destruct (Hcnew ltac:(lia)) as [cat Hcat].
      destruct (categoryId next) as [c|]; [|done]. cbn in Hcat |- *.
      destruct (moveSpent _ _ _ !! c) eqn:Hmoved; [done|].
      apply moveSpent_lookup_None in Hmoved. congruence. }
    rewrite spentOf_creditSpent; cycle 1.
    { intros Hne. rewrite rebalanced_categories. apply Hcold. lia. }
    unfold spentOf. rewrite rebalanced_categories. cbn [categories setTransactions].
    unfold spendOn. destruct (decide _), (decide _); lia.
Qed.

Lemma created_is_Some gen payload db :
  (∀ id, is_Some (accounts (created gen payload db) !! id) ↔ is_Some (accounts db !! id)) ∧
  (∀ id, is_Some (categories (created gen payload db) !! id) ↔ is_Some (categories db !! id)).
Proof.
  unfold created. split; intros id.
  - cbn [accounts creditSpent creditBalance setCategories setAccounts setTransactions].
    apply lookup_alter_is_Some.
  - by rewrite categories_creditSpent_is_Some.
Qed.

Lemma removed_is_Some transactionId existing db :
  (∀ id, is_Some (accounts (removed transactionId existing db) !! id) ↔
         is_Some (accounts db !! id)) ∧
  (∀ id, is_Some (categories (removed transactionId existing db) !! id) ↔
         is_Some (categories db !! id)).
Proof.
  unfold removed. split; intros id.
  - cbn [accounts creditSpent creditBalance setCategories setAccounts setTransactions].
    apply lookup_alter_is_Some.
  - cbn [categories setTransactions]. by rewrite categories_creditSpent_is_Some.
Qed.

Lemma patched_is_Some transactionId existing next db :
  (∀ id, is_Some (accounts (patched transactionId existing next db) !! id) ↔
         is_Some (accounts db !! id)) ∧
  (∀ id, is_Some (categories (patched transactionId existing next db) !! id) ↔
         is_Some (categories db !! id)).
Proof.
  unfold patched. split; intros id.
  - cbn [accounts creditSpent setCategories]. by rewrite rebalanced_accounts_is_Some.
  - rewrite !categories_creditSpent_is_Some. by rewrite rebalanced_categories.
Qed.

Lemma keeps_refl db : keeps db db.
Proof. by repeat split. Qed.

Lemma keeps_trans db1 db2 db3 : keeps db1 db2 → keeps db2 db3 → keeps db1 db3.
Proof.
  intros (Hb & Hs & Ha & Hc) (Hb' & Hs' & Ha' & Hc').
  split; [|split; [|split]]; intros id.
  - by rewrite Hb', Hb.
  - by rewrite Hs', Hs.
  - by rewrite Ha', Ha.
  - by rewrite Hc', Hc.
Qed.

Lemma not_missing {A} (P : Prop) (o : option A) : ¬ (P ∧ o = None) → P → is_Some o.
Proof. intros Hn HP. destruct o; [done|]. destruct Hn. by split. Qed.

Lemma create_keeps gen userId payload db :
  keeps db (create gen userId payload db).2.
Proof.
  rewrite create_run. cbn zeta.
  destruct (String.eqb _ _); [apply keeps_refl|].
  destruct (accounts db !! ci_accountId payload) as [a|] eqn:Ha; [|apply keeps_refl].
  destruct (decide (acc_userId a = userId)) as [Hu|Hu]; [|apply keeps_refl].
  destruct (ensureCategoryAvailability _ _ _ _ db); [apply keeps_refl|].
  destruct (transactions db !! gen_id gen) eqn:Hfresh; [apply keeps_refl|].
  destruct (decide _) as [Hmiss|Hhave]; [apply keeps_refl|].
  cbn [snd].
  destruct (created_offsets gen payload db) as [Hb Hs];
    [by rewrite Ha|done|by apply not_missing|].
  destruct (created_is_Some gen payload db) as [Has Hcs].
  by split; [|split; [|split]].
Qed.

Lemma remove_keeps userId transactionId db :
  keeps db (remove userId transactionId db).2.
Proof.
  rewrite remove_run.
  destruct (transactions db !! transactionId) as [existing|] eqn:Ht; [|apply keeps_refl].
  destruct (accounts db !! accountId existing) as [a|] eqn:Ha; [|apply keeps_refl].
  destruct (decide (acc_userId a = userId)) as [Hu|Hu]; [|apply keeps_refl].
  destruct (decide _) as [Hmiss|Hhave]; [apply keeps_refl|].
  cbn [snd].
  destruct (removed_offsets transactionId existing db) as [Hb Hs];
    [done|by rewrite Ha|by apply not_missing|].
  destruct (removed_is_Some transactionId existing db) as [Has Hcs].
  by split; [|split; [|split]].
Qed.

Lemma patchSpent_keeps transactionId existing next db :
  transactions db !! transactionId = Some existing →
  is_Some (accounts db !! accountId existing) →
  is_Some (accounts db !! accountId next) →
  keeps db (patchSpent transactionId existing next db).2.
Proof.
  intros Ht Hold Hnew. unfold patchSpent.
  destruct (decide _) as [Hmiss|Hhave]; [apply keeps_refl|].
  cbn [snd].
  destruct (patched_offsets transactionId existing next db) as [Hb Hs]; try done.
  - apply not_missing. intros ?. apply Hhave. by left.
  - apply not_missing. intros ?. apply Hhave. by right.
  - destruct (patched_is_Some transactionId existing next db) as [Has Hcs].
    by split; [|split; [|split]].
Qed.

Lemma patch_keeps userId transactionId payload db :
  failedSwap (patch userId transactionId payload db).1 = false →
  keeps db (patch userId transactionId payload db).2.
Proof.
  rewrite patch_run.
  destruct (patchSchema_parse payload); [intros _; apply keeps_refl|].
  destruct (transactions db !! transactionId) as [existing|] eqn:Ht;
    [|intros _; apply keeps_refl].
  destruct (accounts db !! accountId existing) as [a|] eqn:Ha; [|intros _; apply keeps_refl].
  destruct (decide (acc_userId a = userId)) as [Hu|Hu]; [|intros _; apply keeps_refl].
  cbn zeta.
  destruct (ensureCategoryAvailability _ _ _ _ db); [intros _; apply keeps_refl|].
  destruct (decide (accountId _ = accountId existing)) as [Hsame|Hdiff].
  { intros _. apply patchSpent_keeps; [done|by rewrite Ha|by rewrite Hsame, Ha]. }
  destruct (accounts db !! accountId (merge payload existing)) as [a'|] eqn:Ha'; [|done].
  destruct (decide (acc_userId a' = userId)) as [Hu'|Hu']; [|done].
  intros _. apply patchSpent_keeps; [done|by rewrite Ha|by rewrite Ha'].
Qed.

Lemma step_keeps op db :
  failedSwap (step op db).1 = false → keeps db (step op db).2.
Proof.
  destruct op; cbn [step]; intros Hok.
  - apply create_keeps.
  - by apply patch_keeps.
  - apply remove_keeps.
Qed.

Lemma run_keeps ops db : noFailedSwap ops db = true → keeps db (run ops db).
Proof.
  revert db. induction ops as [|op ops IH]; intros db Hok; cbn [run].
  - apply keeps_refl.
  - cbn [noFailedSwap] in Hok. apply andb_true_iff in Hok as [Hop Hrest].
    apply negb_true_iff in Hop.
    eapply keeps_trans; [by apply step_keeps|by apply IH].
Qed.


(** The spend identity survives every such sequence as well. *)
Lemma spend_identity_kept ops db :
  noFailedSwap ops db = true → spendIdentity db → spendIdentity (run ops db).
Proof.
  intros Hok Hid id c Hc.
  destruct (run_keeps ops db Hok) as (_ & Hs & _ & Hsome).
  destruct (proj1 (Hsome id)) as [c0 Hc0]; [by rewrite Hc|].
  specialize (Hs id). unfold spentOffset, spentOf in Hs.
  rewrite Hc, Hc0 in Hs. cbn in Hs. rewrite (Hid _ _ Hc0) in Hs. lia.
Qed.

(** ** Detaching a category, or leaving it alone (C10) *)

(** What a 200 from [patch] tells. *)
Lemma patch_200 userId transactionId payload db r db' :
  patch userId transactionId payload db = (inr r, db') → status r = 200 →
  ∃ existing,
    transactionOf db userId transactionId existing ∧
    db' = patched transactionId existing (merge payload existing) db.
Proof.
  rewrite patch_run. intros Hrun Hok.
  destruct (patchSchema_parse payload); [done|].
  destruct (transactions db !! transactionId) as [existing|] eqn:Ht; [|by simplify_eq].
  destruct (accounts db !! accountId existing) as [a|] eqn:Ha; [|by simplify_eq].
  destruct (decide (acc_userId a = userId)) as [Hu|Hu]; [|by simplify_eq].
  cbn zeta in Hrun.
  destruct (ensureCategoryAvailability _ _ _ _ db); [done|].
  assert (∀ res, patchSpent transactionId existing (merge payload existing) db = res →
                 res = (inr r, db') →
                 db' = patched transactionId existing (merge payload existing) db) as Hspent.
  { unfold patchSpent. intros res <-. destruct (decide (_ ∨ _)); intros; by simplify_eq. }
  exists existing. split; [split; [done|by exists a]|].
  destruct (decide (accountId _ = accountId existing)); [by eapply Hspent|].
  destruct (accounts db !! accountId (merge payload existing)) as [a'|]; [|by simplify_eq].
  destruct (decide (acc_userId a' = userId)); [by eapply Hspent|by simplify_eq].
Qed.



(** ** Assigning money (C5) *)



(** ** The scenarios of the specification, run *)

(** Scenario 2, first step: balance 100 to 80, spent 0 to 20. *)
Lemma create_scenario :
  create gen1 "u1" (spendOnA 20) scenarioDb =
    (inr (mkResponse 201 (BTransaction "t1" (rowOn "A" 20))),
     mkDb {[ "A" := mkAccount "u1" "Checking" "checking" 80;
             "B" := mkAccount "u2" "Savings" "savings" 0 ]}
          {[ "m1" := mkBudgetMonth "u1" "2026-01-01T00:00:00.000Z" 100 ]}
          {[ "c" := mkCategory "m1" "Groceries" 50 20 ]}
          {[ "t1" := rowOn "A" 20 ]}).
Proof. reflexivity. Qed.

(** A categorized spend, an uncategorized one, and income. *)
Lemma spend_contribution_witness :
  spendingAmount (Value "c") 20 = 20 ∧
  spendingAmount Null 20 = 0 ∧
  spendingAmount (Value "c") (-5) = 0 ∧
  categories (create gen1 "u1" (spendOnA (-5)) scenarioDb).2 = categories scenarioDb.
Proof.
  destruct spend_contribution as (Hpos & Hzero & Hcreate & _).
  split; [|split; [|split]].
  - apply Hpos; [by exists "c"|lia].
  - apply Hzero. intros [(c & Hc & _) _]. discriminate.
  - apply Hzero. intros [_ Hlt]. lia.
  - apply Hcreate. cbn. intros [_ Hlt]. lia.
Defined.

(** Removing from an empty ledger, and removing twice. *)
Lemma remove_not_found_witness :
  (∀ t, ¬ transactionOf scenarioDb "u1" "t1" t) ∧
  remove "u1" "t1" scenarioDb = (inr (notFound "Transaction not found"), scenarioDb) ∧
  (let db1 := (create gen1 "u1" (spendOnA 20) scenarioDb).2 in
   remove "u1" "t1" db1 = (inr (mkResponse 200 BSuccess), scenarioDb) ∧
   remove "u1" "t1" scenarioDb = (inr (notFound "Transaction not found"), scenarioDb)).
Proof.
  assert (∀ t, ¬ transactionOf scenarioDb "u1" "t1" t) as Hnone.
  { intros t [Ht _]. vm_compute in Ht. discriminate. }
  split; [done|]. split.
  - by apply (proj1 (remove_not_found "u1" "t1" scenarioDb)).
  - cbn zeta. split; [reflexivity|].
    apply (proj2 (remove_not_found "u1" "t1" (create gen1 "u1" (spendOnA 20) scenarioDb).2)
             (mkResponse 200 BSuccess) scenarioDb); reflexivity.
Defined.

(** Scenario 2 cut short: create, then remove. *)
Lemma create_remove_roundtrip_witness :
  create gen1 "u1" (spendOnA 20) scenarioDb =
    (inr (mkResponse 201 (BTransaction "t1" (rowOn "A" 20))),
     (create gen1 "u1" (spendOnA 20) scenarioDb).2) ∧
  remove "u1" "t1" (create gen1 "u1" (spendOnA 20) scenarioDb).2 =
    (inr (mkResponse 200 BSuccess), scenarioDb).
Proof.
  split; [reflexivity|].
  apply (create_remove_roundtrip gen1 "u1" (spendOnA 20) scenarioDb
           (mkResponse 201 (BTransaction "t1" (rowOn "A" 20)))); reflexivity.
Defined.






(** ** The balance identity (C2) *)



(** ** The failed account swap (C1, C3) *)

(** A [patch] that passes the availability check and names a new account
    the caller does not own answers 404 after the row has been rewritten,
    and the transaction commits: the store differs from the one before. *)
Lemma patch_failed_swap userId transactionId payload db existing :
  patchSchema_parse payload = inr payload →
  transactionOf db userId transactionId existing →
  let next := merge payload existing in
  accountId next ≠ accountId existing →
  ¬ ownsAccount db userId (accountId next) →
  ensureCategoryAvailability userId (ofColumn (categoryId next))
    (spendingAmount (ofColumn (categoryId next)) (amount next))
    (if decide (categoryId next = categoryId existing)
     then spendingAmount (ofColumn (categoryId existing)) (amount existing)
     else 0) db = inr (tt, db) →
  patch userId transactionId payload db =
    (inr (notFound "New account not found"),
     setTransactions <[transactionId := next]> db) ∧
  setTransactions <[transactionId := next]> db ≠ db.
Proof.
  intros Hparse [Ht (a & Ha & Hu)] next Hdiff Hforeign Hcheck. split.
  - rewrite patch_run, Hparse, Ht. cbn match beta. rewrite Ha. cbn match beta.
    destruct (decide (acc_userId a = userId)); [|done]. cbn zeta. fold next.
    rewrite Hcheck, decide_False by done.
    destruct (accounts db !! accountId next) as [a'|] eqn:Ha'; [|done].
    destruct (decide (acc_userId a' = userId)); [|done].
    destruct Hforeign. by exists a'.
  - intros Heq. apply (f_equal (λ db, transactions db !! transactionId)) in Heq.
    cbn [transactions setTransactions] in Heq.
    rewrite lookup_insert_eq, Ht in Heq. congruence.
Qed.

(** C1, on the code.  User [u1] moves a transaction of amount 25 from the
    own account [A] to account [B] of another user.  The answer is 404
    "New account not found", yet the stored row now references [B]; no
    balance has moved.  From then on [u1] cannot find the transaction, and
    the owner of [B] can remove it and is credited 25 that were never
    debited. *)
Theorem failed_swap_commits_row :
  let db1 := (create gen1 "u1" (spendOnA 25) scenarioDb).2 in
  let result := patch "u1" "t1" (patchAccount "B") db1 in
  ¬ ownsAccount db1 "u1" "B" ∧
  transactions db1 !! "t1" = Some (rowOn "A" 25) ∧
  result.1 = inr (notFound "New account not found") ∧
  transactions result.2 !! "t1" = Some (rowOn "B" 25) ∧
  result.2 ≠ db1 ∧
  balanceOf db1 "A" = 75 ∧ balanceOf result.2 "A" = 75 ∧
  balanceOf db1 "B" = 0 ∧ balanceOf result.2 "B" = 0 ∧
  (remove "u1" "t1" result.2).1 = inr (notFound "Transaction not found") ∧
  (remove "u2" "t1" result.2).1 = inr (mkResponse 200 BSuccess) ∧
  balanceOf (remove "u2" "t1" result.2).2 "B" = 25.
Proof.
  cbn zeta. split.
  { intros (a & Ha & Hu). vm_compute in Ha. simplify_eq. }
  split; [reflexivity|]. split; [reflexivity|]. split; [reflexivity|].
  split.
  { intros Heq. apply (f_equal (λ db, transactions db !! "t1")) in Heq.
    vm_compute in Heq. discriminate. }
  repeat split; reflexivity.
Qed.

(** C3, on the code.  After the first step of scenario 2 the spend identity
    holds: the category has spent 20 and its one transaction contributes
    20.  User [u1] then patches the transaction with a new amount, 5, and
    the account [B] of another user.  The answer is 404, the row is stored
    with amount 5, and the spent total still reads 20. *)
Theorem failed_swap_breaks_spend_identity :
  let db1 := (create gen1 "u1" (spendOnA 20) scenarioDb).2 in
  let result := patch "u1" "t1" (patchAccountAmount "B" 5) db1 in
  spendIdentity scenarioDb ∧ spendIdentity db1 ∧
  result.1 = inr (notFound "New account not found") ∧
  transactions result.2 !! "t1" = Some (rowOn "B" 5) ∧
  spentOf result.2 "c" = 20 ∧ categoryTotal result.2 "c" = 5 ∧
  ¬ spendIdentity result.2.
Proof.
  cbn zeta. split; [|split].
  - intros id c Hc. unfold scenarioDb in Hc. cbn [categories] in Hc.
    apply lookup_singleton_Some in Hc as [<- <-]. reflexivity.
  - rewrite create_scenario. intros id c Hc. cbn [snd categories] in Hc.
    apply lookup_singleton_Some in Hc as [<- <-]. reflexivity.
  - split; [reflexivity|]. split; [reflexivity|]. split; [reflexivity|].
    split; [reflexivity|]. intros Hid.
    specialize (Hid "c" (mkCategory "m1" "Groceries" 50 20) eq_refl).
    vm_compute in Hid. discriminate.
Qed.



(** ** Failures write nothing *)

Lemma create_failure gen userId payload db :
  isFailure (create gen userId payload db).1 = true →
  (create gen userId payload db).2 = db.
Proof.
  rewrite create_run. cbn zeta.
  repeat case_match; cbn; try done.
Qed.

Lemma remove_failure userId transactionId db :
  isFailure (remove userId transactionId db).1 = true →
  (remove userId transactionId db).2 = db.
Proof.
  rewrite remove_run.
  repeat case_match; cbn; try done.
Qed.

Lemma patch_failure userId transactionId payload db :
  isFailure (patch userId transactionId payload db).1 = true →
  failedSwap (patch userId transactionId payload db).1 = false →
  (patch userId transactionId payload db).2 = db.
Proof.
  rewrite patch_run. cbn zeta. unfold patchSpent.
  repeat case_match; cbn; try done.
Qed.

(** X1. A transactions create, patch or remove that fails, by a throw or
    by a 404 answer, leaves the whole store as it was, unless it is a
    patch that answers 404 'New account not found'. *)
Theorem failure_writes_nothing op db :
  isFailure (step op db).1 = true →
  failedSwap (step op db).1 = false →
  (step op db).2 = db.
Proof.
  destruct op; cbn [step]; intros Hfail Hswap.
  - by apply create_failure.
  - by apply patch_failure.
  - by apply remove_failure.
Qed.


(** ** What the ledger operations leave alone *)

#[local] Instance sameAccount_refl : Reflexive sameAccount.
Proof. by intros a. Qed.
#[local] Instance sameAccount_trans : Transitive sameAccount.
Proof. intros a b c (? & ? & ?) (? & ? & ?). repeat split; congruence. Qed.
#[local] Instance sameCategory_refl : Reflexive sameCategory.
Proof. by intros a. Qed.
#[local] Instance sameCategory_trans : Transitive sameCategory.
Proof. intros a b c (? & ? & ?) (? & ? & ?). repeat split; congruence. Qed.













(** ** Balances and spent totals are functions of the transaction table *)



(** ** Other users and other rows *)

Lemma creditBalance_other x by_ db id :
  id ≠ x → accounts (creditBalance x by_ db) !! id = accounts db !! id.
Proof. intros Hne. unfold creditBalance. cbn. by apply lookup_alter_ne. Qed.

Lemma rebalanced_other existing next db id :
  id ≠ accountId existing → id ≠ accountId next →
  accounts (rebalanced existing next db) !! id = accounts db !! id.
Proof.
  intros Hold Hnew. unfold rebalanced. destruct (decide _).
  - by apply creditBalance_other.
  - by rewrite !creditBalance_other.
Qed.

(** X3. A transactions create, patch or remove made for one user never
    changes an account row whose userId is another user's. *)
Theorem foreign_accounts_untouched op db id a :
  accounts db !! id = Some a → acc_userId a ≠ opUser op →
  accounts (step op db).2 !! id = Some a.
Proof.
  intros Ha Hforeign.
  destruct op as [gen userId payload|userId transactionId payload|userId transactionId];
    cbn [step opUser] in *.
  - rewrite create_run. cbn zeta.
    destruct (String.eqb _ _); [done|].
    destruct (accounts db !! ci_accountId payload) as [a0|] eqn:Ha0; [|done].
    destruct (decide (acc_userId a0 = userId)) as [Hu|Hu]; [|done].
    destruct (ensureCategoryAvailability _ _ _ _ db); [done|].
    destruct (transactions db !! gen_id gen); [done|].
    destruct (decide _); [done|]. cbn [snd]. unfold created.
    cbn [accounts creditSpent setCategories].
    rewrite creditBalance_other; [done|]. intros ->. congruence.
  - rewrite patch_run.
    destruct (patchSchema_parse payload); [done|].
    destruct (transactions db !! transactionId) as [existing|]; [|done].
    destruct (accounts db !! accountId existing) as [a0|] eqn:Ha0; [|done].
    destruct (decide (acc_userId a0 = userId)) as [Hu|Hu]; [|done].
    cbn zeta.
    destruct (ensureCategoryAvailability _ _ _ _ db); [done|].
    assert (id ≠ accountId existing) as Hold by (intros ->; congruence).
    assert (∀ a', accounts db !! accountId (merge payload existing) = Some a' →
                  acc_userId a' = userId →
                  accounts (patchSpent transactionId existing (merge payload existing) db).2
                    !! id = Some a) as Hspent.
    { intros a' Ha' Hu'. unfold patchSpent. destruct (decide (_ ∨ _)); [done|].
      cbn [snd]. unfold patched. cbn [accounts creditSpent setCategories].
      rewrite rebalanced_other; [done..|]. intros ->. congruence. }
    destruct (decide (accountId _ = accountId existing)) as [Hsame|Hdiff].
    { apply (Hspent a0); [by rewrite Hsame|done]. }
    destruct (accounts db !! accountId (merge payload existing)) as [a'|] eqn:Ha'; [|done].
    destruct (decide (acc_userId a' = userId)); [|done].
    by apply (Hspent a').
  - rewrite remove_run.
    destruct (transactions db !! transactionId) as [existing|]; [|done].
    destruct (accounts db !! accountId existing) as [a0|] eqn:Ha0; [|done].
    destruct (decide (acc_userId a0 = userId)) as [Hu|Hu]; [|done].
    destruct (decide _); [done|]. cbn [snd]. unfold removed.
    cbn [accounts creditSpent setCategories setTransactions].
    rewrite creditBalance_other; [done|]. intros ->. congruence.
Qed.

(** X4. A transactions create, patch or remove changes at most the
    transaction row it is about (the generated id for create, the given id
    for patch and remove); every other transaction row is as before,
    whether the request succeeds or fails. *)
Theorem other_transactions_untouched op db id :
  id ≠ opTarget op →
  transactions (step op db).2 !! id = transactions db !! id.
Proof.
  intros Hne.
  destruct op as [gen userId payload|userId transactionId payload|userId transactionId];
    cbn [step opTarget] in *.
  - rewrite create_run. cbn zeta.
    repeat case_match; cbn [snd]; try done.
    unfold created. cbn. by apply lookup_insert_ne.
  - rewrite patch_run. cbn zeta. unfold patchSpent.
    repeat case_match; cbn [snd]; try done;
      unfold patched; cbn [transactions creditSpent setCategories];
      rewrite ?rebalanced_transactions; cbn; by apply lookup_insert_ne.
  - rewrite remove_run.
    repeat case_match; cbn [snd]; try done.
    unfold removed. cbn. by apply lookup_delete_ne.
Qed.

(** ** No operation creates overspend *)







(** ** Editing what is not money *)

Lemma creditBalance_zero x db : creditBalance x 0 db = db.
Proof.
  unfold creditBalance, setAccounts. rewrite alter_id; [by destruct db|].
  intros [] _. unfold addBalance. cbn. f_equal. lia.
Qed.

Lemma creditSpent_back c by_ db : creditSpent c by_ (creditSpent c (- by_) db) = db.
Proof.
  unfold creditSpent, setCategories. cbn [categories accounts budgetMonths transactions].
  replace (moveSpent c by_ (moveSpent c (- by_) (categories db))) with (categories db);
    [by destruct db|].
  destruct c as [c|]; [|done]. cbn. rewrite alter_alter_eq. symmetry. apply alter_id.
  intros [] _. unfold addSpent. cbn. f_equal. lia.
Qed.

(** X6. A transactions patch whose payload leaves out accountId,
    categoryId and amount and that answers 200 changes the patched
    transaction row only: the store is the old one with that row replaced
    by the merged row, so no account balance and no category spent total
    moves. *)
Theorem patch_metadata_moves_no_money userId transactionId payload db r db' :
  pi_accountId payload = None → pi_categoryId payload = Undefined →
  pi_amount payload = None →
  patch userId transactionId payload db = (inr r, db') → status r = 200 →
  ∃ existing,
    transactions db !! transactionId = Some existing ∧
    db' = setTransactions <[transactionId := merge payload existing]> db.
Proof.
  intros Hacc Hcat Hamt Hrun Hok.
  destruct (patch_200 _ _ _ _ _ _ Hrun Hok) as (existing & [Ht _] & ->).
  exists existing. split; [done|].
  unfold patched, rebalanced, merge. rewrite Hacc, Hcat, Hamt.
  cbn [accountId categoryId amount nullish orKeep].
  rewrite decide_True by done. rewrite Z.sub_diag, creditBalance_zero.
  apply creditSpent_back.
Qed.

(** ** [assign] as a decision tree *)

Lemma findBudget_Some db userId m bid b :
  findBudget db userId m = Some (bid, b) →
  budgetMonths db !! bid = Some b ∧ bm_userId b = userId ∧ month b = m.
Proof.
  unfold findBudget. destruct (list_find _ _) as [[i kb]|] eqn:Hfind; [|done].
  intros [= ->]. apply list_find_Some in Hfind as (Hi & [Hu Hm] & _).
  apply list_elem_of_lookup_2, elem_of_map_to_list in Hi. done.
Qed.

Lemma findBudget_None db userId m id b :
  findBudget db userId m = None →
  budgetMonths db !! id = Some b → ¬ (bm_userId b = userId ∧ month b = m).
Proof.
  unfold findBudget. destruct (list_find _ _) eqn:Hfind; [done|]. intros _ Hb.
  apply list_find_None in Hfind. rewrite Forall_forall in Hfind.
  apply (Hfind (id, b)). by apply elem_of_map_to_list.
Qed.

Lemma budgetMonth_findUnique_eq userId m db :
  Prisma.budgetMonth_findUnique userId m db = inr (findBudget db userId m, db).
Proof. reflexivity. Qed.

Lemma assign_run newDate userId monthString categoryId payload db :
  Categories.assign newDate userId monthString categoryId payload db =
    match newDate (monthString ++ "-01T00:00:00.000Z") with
    | None => (inl (Error "Invalid month format; expected YYYY-MM"), db)
    | Some m =>
      if Categories.as_amount payload <? 0 then (inl ZodError, db) else
      match findBudget db userId m with
      | None => (inr (notFound "Budget month not found"), db)
      | Some (budgetId, budget) =>
        match categories db !! categoryId with
        | None => (inr (notFound "Category not found"), db)
        | Some cat =>
          if decide (budgetMonthId cat = budgetId) then
            if availableToBudget budget <? Categories.as_amount payload
            then (inl InsufficientFunds, db)
            else (inr (mkResponse 200
                         (BAssign budgetId
                            (withAvailable
                               (availableToBudget budget - Categories.as_amount payload) budget)
                            categoryId (addAssigned (Categories.as_amount payload) cat))),
                  assignedTo budgetId categoryId (Categories.as_amount payload) db)
          else (inr (notFound "Category not found"), db)
        end
      end
    end.
Proof.
  unfold Categories.assign, Categories.parseMonth, Categories.assignSchema_parse.
  destruct (newDate _) as [m|]; [|done].
  destruct (Z.ltb_spec (Categories.as_amount payload) 0) as [Hneg|Hnn]; [done|].
  unfold transaction. rewrite bind_run, budgetMonth_findUnique_eq.
  destruct (findBudget db userId m) as [[budgetId budget]|] eqn:Hfind; [|done].
  apply findBudget_Some in Hfind as (Hb & _ & _).
  rewrite bind_run. unfold Prisma.category_findFirst_ofBudget. tx_red.
  destruct (categories db !! categoryId) as [cat|] eqn:Hcat; [|done].
  destruct (decide (budgetMonthId cat = budgetId)) as [Hbid|Hbid]; [|done].
  unfold BudgetEngine.assignMoney. cbn [BudgetEngine.in_assigned BudgetEngine.in_availableToBudget].
  destruct (Z.ltb_spec (Categories.as_amount payload) 0); [lia|].
  destruct (Z.ltb_spec (availableToBudget budget) (Categories.as_amount payload)); [done|].
  cbn. unfold Prisma.budgetMonth_setAvailable. tx_red. rewrite Hb.
  unfold Prisma.category_incrementAssigned. tx_red.
  cbn [categories setBudgetMonths]. rewrite Hcat. cbn.
  f_equal. unfold assignedTo, setCategories, setBudgetMonths. cbn.
  f_equal.
  - by rewrite <- (insert_as_alter
                     (λ b, withAvailable (availableToBudget b - Categories.as_amount payload) b)
                     _ _ _ Hb).
  - by apply insert_as_alter.
Qed.

(** ** What [assignMoney] and [assign] keep *)



Lemma assign_failure_writes_nothing newDate userId monthString categoryId payload db :
  isFailure (Categories.assign newDate userId monthString categoryId payload db).1 = true →
  (Categories.assign newDate userId monthString categoryId payload db).2 = db.
Proof. rewrite assign_run. repeat case_match; cbn; done. Qed.


(** X9. categories assign never changes accounts or transactions; if no
    budget month has a negative availableToBudget before it, none has
    after; if no category has more spent than assigned before it, none has
    after. *)
Theorem assign_keeps_budget_sound newDate userId monthString categoryId payload db :
  let db' := (Categories.assign newDate userId monthString categoryId payload db).2 in
  accounts db' = accounts db ∧ transactions db' = transactions db ∧
  (noNegativePool db → noNegativePool db') ∧
  (noOverspend db → noOverspend db').
Proof.
  cbn zeta. rewrite assign_run.
  destruct (newDate _) as [m|]; [|done].
  destruct (Z.ltb_spec (Categories.as_amount payload) 0); [done|].
  destruct (findBudget db userId m) as [[budgetId budget]|] eqn:Hfind; [|done].
  apply findBudget_Some in Hfind as (Hb & _ & _).
  destruct (categories db !! categoryId) as [cat|] eqn:Hcat; [|done].
  destruct (decide (budgetMonthId cat = budgetId)) as [Hbid|Hbid]; [|done].
  destruct (Z.ltb_spec (availableToBudget budget) (Categories.as_amount payload)); [done|].
  cbn [snd]. unfold assignedTo.
  split; [done|]. split; [done|]. split.
  - intros Hinv id b'. cbn [budgetMonths setCategories setBudgetMonths].
    rewrite lookup_alter. destruct (decide (budgetId = id)) as [<-|Hne]; [|by apply Hinv].
    rewrite Hb. intros [= <-]. cbn. lia.
  - intros Hinv id c'. cbn [categories setCategories setBudgetMonths].
    rewrite lookup_alter. destruct (decide (categoryId = id)) as [<-|Hne]; [|by apply Hinv].
    rewrite Hcat. intros [= <-]. cbn. pose proof (Hinv _ _ Hcat). lia.
Qed.

(** X10. categories assign, for a month that parses and an amount that is
    not negative, on a category that exists but whose budget month is not
    the caller's for that month, answers 404 and writes nothing. *)
Theorem assign_foreign_category newDate userId monthString categoryId payload db m cat :
  newDate (monthString ++ "-01T00:00:00.000Z") = Some m →
  0 ≤ Categories.as_amount payload →
  categories db !! categoryId = Some cat →
  (∀ b, budgetMonths db !! budgetMonthId cat = Some b →
        ¬ (bm_userId b = userId ∧ month b = m)) →
  ∃ error,
    Categories.assign newDate userId monthString categoryId payload db
    = (inr (notFound error), db).
Proof.
  intros Hdate Hnn Hcat Hforeign. rewrite assign_run, Hdate.
  destruct (Z.ltb_spec (Categories.as_amount payload) 0); [lia|].
  destruct (findBudget db userId m) as [[budgetId budget]|] eqn:Hfind; [|by eexists].
  apply findBudget_Some in Hfind as (Hb & Hu & Hm).
  rewrite Hcat. destruct (decide (budgetMonthId cat = budgetId)) as [Hbid|Hbid]; [|by eexists].
  destruct (Hforeign budget); [by rewrite Hbid|done].
Qed.

(** X11. categories assign never fails with assignMoney's error 'Assigned
    amount must be >= 0': the schema has rejected a negative amount before
    the engine is called. *)
Theorem assign_never_throws_negative newDate userId monthString categoryId payload db :
  (Categories.assign newDate userId monthString categoryId payload db).1
  ≠ inl (Error "Assigned amount must be >= 0").
Proof.
  rewrite assign_run. unfold InsufficientFunds, notFound.
  repeat case_match; cbn; congruence.
Qed.

(** ** The accounts handler *)

Lemma accounts_patch_run userId accountId payload db :
  Accounts.patch userId accountId payload db =
    match Accounts.accountPatchSchema_parse payload with
    | inl e => (inl e, db)
    | inr _ =>
      match accounts db !! accountId with
      | None => (inr (notFound "Account not found"), db)
      | Some a =>
        if decide (acc_userId a = userId)
        then (inr (mkResponse 200 (BAccount accountId (patchedAccount payload a))),
              setAccounts <[accountId := patchedAccount payload a]> db)
        else (inr (notFound "Account not found"), db)
      end
    end.
Proof.
  unfold Accounts.patch.
  destruct (Accounts.accountPatchSchema_parse payload) as [e|input] eqn:Hparse; [done|].
  assert (input = payload) as ->.
  { unfold Accounts.accountPatchSchema_parse in Hparse.
    destruct (Accounts.pp_name payload) as [n|]; [destruct (String.eqb n "")|]; congruence. }
  unfold transaction. rewrite bind_run, account_findFirst_eq.
  destruct (accounts db !! accountId) as [a|] eqn:Ha; [|done].
  destruct (decide (acc_userId a = userId)); [|done].
  rewrite bind_run. unfold Prisma.account_update. tx_red. by rewrite Ha.
Qed.

(** X12. For a payload the schema accepts, accounts patch answers 404
    'Account not found' and writes nothing when the account is not one of
    the caller's; otherwise it answers 200 with, and stores, the row whose
    name and balance are the payload's where given and the old ones where
    left out, with owner and type unchanged. *)
Theorem accounts_patch_outcomes userId accountId payload db :
  Accounts.accountPatchSchema_parse payload = inr payload →
  (¬ ownsAccount db userId accountId →
   Accounts.patch userId accountId payload db = (inr (notFound "Account not found"), db)) ∧
  (∀ a, accounts db !! accountId = Some a → acc_userId a = userId →
   ∃ a', Accounts.patch userId accountId payload db
         = (inr (mkResponse 200 (BAccount accountId a')),
            setAccounts <[accountId := a']> db) ∧
         acc_userId a' = userId ∧ acc_type a' = acc_type a ∧
         acc_name a' = nullish (Accounts.pp_name payload) (acc_name a) ∧
         balance a' = nullish (Accounts.pp_balance payload) (balance a)).
Proof.
  intros Hparse. rewrite accounts_patch_run, Hparse. split.
  - intros Hforeign. destruct (accounts db !! accountId) as [a|] eqn:Ha; [|done].
    destruct (decide (acc_userId a = userId)); [|done]. destruct Hforeign. by exists a.
  - intros a Ha Hu. rewrite Ha, decide_True by done.
    exists (patchedAccount payload a). by repeat split.
Qed.

Lemma accounts_patch_frame userId accountId payload db :
  let db' := (Accounts.patch userId accountId payload db).2 in
  budgetMonths db' = budgetMonths db ∧ categories db' = categories db ∧
  transactions db' = transactions db ∧
  ∀ id a, accounts db !! id = Some a →
    ∃ a', accounts db' !! id = Some a' ∧
          acc_userId a' = acc_userId a ∧ acc_type a' = acc_type a ∧
          (id ≠ accountId ∨ acc_userId a ≠ userId → a' = a).
Proof.
  cbn zeta. rewrite accounts_patch_run.
  destruct (Accounts.accountPatchSchema_parse payload); [by eauto 10|].
  destruct (accounts db !! accountId) as [a0|] eqn:Ha0; [|by eauto 10].
  destruct (decide (acc_userId a0 = userId)) as [Hu|Hu]; [|by eauto 10].
  cbn [snd]. repeat split; try done. intros id a Ha. cbn [accounts setAccounts].
  destruct (decide (accountId = id)) as [<-|Hne].
  - rewrite lookup_insert_eq. assert (a0 = a) as -> by congruence.
    eexists. split; [done|]. repeat split. intros [?|?]; done.
  - rewrite lookup_insert_ne by done. eauto.
Qed.

Lemma account_findMany_elem nameLe userId db k a :
  (k, a) ∈ Prisma.account_findMany nameLe userId db ↔
  accounts db !! k = Some a ∧ acc_userId a = userId.
Proof.
  unfold Prisma.account_findMany.
  rewrite merge_sort_Permutation, list_elem_of_filter, elem_of_map_to_list. cbn. tauto.
Qed.

(** X13. accounts list answers exactly the account rows of the caller: a
    row is in the answer if and only if it is in the account table with
    the caller's userId. *)
Theorem accounts_list_exact nameLe userId db k a :
  (k, a) ∈ reply_body (Accounts.list nameLe userId db) ↔
  accounts db !! k = Some a ∧ acc_userId a = userId.
Proof. apply account_findMany_elem. Qed.

(** X14. After an accounts create that returns, the created row is in the
    caller's accounts list, its balance is the payload's balance, or 0
    when the payload has none, and the other rows of the list are those
    listed before. *)
Theorem accounts_create_then_list nameLe id userId payload db r db' :
  Accounts.create id userId payload db = (inr r, db') →
  ∃ row, body r = BAccount id row ∧
         (id, row) ∈ reply_body (Accounts.list nameLe userId db') ∧
         balance row = nullish (Accounts.cp_balance payload) 0 ∧
         ∀ k a, k ≠ id →
           ((k, a) ∈ reply_body (Accounts.list nameLe userId db') ↔
            (k, a) ∈ reply_body (Accounts.list nameLe userId db)).
Proof.
  unfold Accounts.create, Accounts.accountCreateSchema_parse.
  destruct (String.eqb _ ""); [done|].
  destruct (_ || _); [|done]. cbn [Accounts.cp_name Accounts.cp_type Accounts.cp_balance nullish].
  unfold transaction. rewrite bind_run. unfold Prisma.account_create. tx_red.
  destruct (accounts db !! id) eqn:Hid; [done|].
  intros [= <- <-]. eexists. split; [done|]. split; [|split; [done|]].
  - apply account_findMany_elem. cbn. by rewrite lookup_insert_eq.
  - intros k a Hne. unfold Accounts.list. cbn [reply_body].
    rewrite !account_findMany_elem. cbn. by rewrite lookup_insert_ne.
Qed.

(** ** The categories handler: [create] and [list] *)

Lemma categories_create_run newDate gen userId monthString payload db :
  Categories.create newDate gen userId monthString payload db =
    match newDate (monthString ++ "-01T00:00:00.000Z") with
    | None => (inl (Error "Invalid month format; expected YYYY-MM"), db)
    | Some m =>
      if String.eqb (Categories.cc_name payload) "" then (inl ZodError, db) else
      let cid := Categories.gen_categoryId gen in
      match findBudget db userId m with
      | Some (bid, _) =>
        match categories db !! cid with
        | Some _ => (inl (PrismaError "P2002"), db)
        | None => (inr (mkReply 201 (cid, newCategory gen payload bid)),
                   setCategories <[cid := newCategory gen payload bid]> db)
        end
      | None =>
        let bid := Categories.gen_budgetId gen in
        match budgetMonths db !! bid with
        | Some _ => (inl (PrismaError "P2002"), db)
        | None =>
          match categories db !! cid with
          | Some _ => (inl (PrismaError "P2002"), db)
          | None =>
            (inr (mkReply 201 (cid, newCategory gen payload bid)),
             setCategories <[cid := newCategory gen payload bid]>
               (setBudgetMonths
                  <[bid := mkBudgetMonth userId m (Categories.gen_available gen)]> db))
          end
        end
      end
    end.
Proof.
  unfold Categories.create, Categories.parseMonth, Categories.categoryCreateSchema_parse.
  destruct (newDate _) as [m|]; [|done].
  destruct (String.eqb _ ""); [done|].
  unfold transaction, Prisma.budgetMonth_upsert, Prisma.category_create. tx_red.
  fold (findBudget db userId m).
  destruct (findBudget db userId m) as [[bid b]|]; cbn.
  - by destruct (categories db !! _).
  - destruct (budgetMonths db !! _); [done|]. cbn.
    by destruct (categories db !! _).
Qed.

Lemma create_uniqueMonths newDate gen userId monthString payload db :
  uniqueMonths db →
  uniqueMonths (Categories.create newDate gen userId monthString payload db).2.
Proof.
  intros Huniq. rewrite categories_create_run.
  destruct (newDate _) as [m|]; [|done].
  destruct (String.eqb _ ""); [done|]. cbn zeta.
  destruct (findBudget db userId m) as [[bid b]|] eqn:Hfind.
  { by destruct (categories db !! _). }
  destruct (budgetMonths db !! Categories.gen_budgetId gen) eqn:Hfresh; [done|].
  destruct (categories db !! _); [done|]. cbn [snd].
  intros id1 b1 id2 b2. cbn [budgetMonths setCategories setBudgetMonths].
  rewrite !lookup_insert_Some.
  intros [[<- <-]|[Hne1 Hb1]] [[<- <-]|[Hne2 Hb2]] Hu Hm; cbn in Hu, Hm; try done.
  - destruct (findBudget_None _ _ _ _ _ Hfind Hb2). by split.
  - destruct (findBudget_None _ _ _ _ _ Hfind Hb1). by split.
  - by eapply Huniq.
Qed.

(** X15. categories create keeps the unique key of budget months: if no
    two budget months share user and month before it, none do after it,
    whether it succeeds or fails. *)
Theorem categories_create_keeps_unique_months newDate gen userId monthString payload db :
  uniqueMonths db →
  uniqueMonths (Categories.create newDate gen userId monthString payload db).2.
Proof. apply create_uniqueMonths. Qed.

Lemma categories_create_adds_only newDate gen userId monthString payload db :
  let db' := (Categories.create newDate gen userId monthString payload db).2 in
  accounts db' = accounts db ∧ transactions db' = transactions db ∧
  budgetMonths db ⊆ budgetMonths db' ∧ categories db ⊆ categories db'.
Proof.
  cbn zeta. rewrite categories_create_run.
  destruct (newDate _) as [m|]; [|done].
  destruct (String.eqb _ ""); [done|]. cbn zeta.
  destruct (findBudget db userId m) as [[bid b]|].
  - destruct (categories db !! _) eqn:Hc; [done|]. cbn [snd].
    repeat split; try done. by apply insert_subseteq.
  - destruct (budgetMonths db !! _) eqn:Hb; [done|].
    destruct (categories db !! _) eqn:Hc; [done|]. cbn [snd].
    repeat split; try done; by apply insert_subseteq.
Qed.

Lemma findBudget_unique db userId m bid b :
  uniqueMonths db →
  budgetMonths db !! bid = Some b → bm_userId b = userId → month b = m →
  findBudget db userId m = Some (bid, b).
Proof.
  intros Huniq Hb Hu Hm.
  destruct (findBudget db userId m) as [[bid' b']|] eqn:Hfind.
  - apply findBudget_Some in Hfind as (Hb' & Hu' & Hm').
    assert (bid' = bid) as -> by (eapply Huniq; [done..|congruence|congruence]).
    congruence.
  - destruct (findBudget_None _ _ _ _ _ Hfind Hb). by split.
Qed.

Lemma categories_list_run newDate userId monthString db :
  Categories.list newDate userId monthString db =
    match newDate (monthString ++ "-01T00:00:00.000Z") with
    | None => inl (Error "Invalid month format; expected YYYY-MM")
    | Some m =>
      inr (mkReply 200
             (match findBudget db userId m with
              | Some (bid, _) =>
                  filter (λ kc : string * Category, budgetMonthId kc.2 = bid)
                    (map_to_list (categories db))
              | None => []
              end))
    end.
Proof.
  unfold Categories.list, Categories.parseMonth.
  destruct (newDate _) as [m|]; [|done].
  unfold Prisma.budgetMonth_findUnique_categories. fold (findBudget db userId m).
  by destruct (findBudget db userId m) as [[bid b]|].
Qed.

(** X16. For a month that parses, and budget months unique by user and
    month, categories list answers 200 with exactly the categories whose
    budget month is the caller's for that month. *)
Theorem categories_list_exact newDate userId monthString db m :
  newDate (monthString ++ "-01T00:00:00.000Z") = Some m →
  uniqueMonths db →
  ∃ r, Categories.list newDate userId monthString db = inr r ∧ reply_status r = 200 ∧
       ∀ id c, (id, c) ∈ reply_body r ↔ categoryIn db userId m id c.
Proof.
  intros Hdate Huniq. rewrite categories_list_run, Hdate.
  eexists. split; [done|]. split; [done|]. intros id c. cbn [reply_body]. unfold categoryIn.
  destruct (findBudget db userId m) as [[bid b]|] eqn:Hfind.
  - pose proof Hfind as (Hb & Hu & Hm)%findBudget_Some.
    rewrite list_elem_of_filter, elem_of_map_to_list. cbn. split.
    + intros [<- Hc]. split; [done|]. by exists b.
    + intros [Hc (b' & Hb' & Hu' & Hm')]. split; [|done].
      pose proof (findBudget_unique _ _ _ _ _ Huniq Hb' Hu' Hm'). congruence.
  - split; [by intros ?%elem_of_nil|].
    intros [_ (b' & Hb' & Hu' & Hm')]. destruct (findBudget_None _ _ _ _ _ Hfind Hb'). done.
Qed.

Lemma categories_list_no_month newDate userId monthString db m :
  newDate (monthString ++ "-01T00:00:00.000Z") = Some m →
  (∀ id b, budgetMonths db !! id = Some b → ¬ (bm_userId b = userId ∧ month b = m)) →
  Categories.list newDate userId monthString db = inr (mkReply 200 []).
Proof.
  intros Hdate Hnone. rewrite categories_list_run, Hdate.
  destruct (findBudget db userId m) as [[bid b]|] eqn:Hfind; [|done].
  apply findBudget_Some in Hfind as (Hb & Hu & Hm). by destruct (Hnone _ _ Hb).
Qed.

(** What a 201 from [categories.create] tells. *)
Lemma categories_create_201 newDate gen userId monthString payload db r db' :
  uniqueMonths db →
  Categories.create newDate gen userId monthString payload db = (inr r, db') →
  ∃ m bid b,
    newDate (monthString ++ "-01T00:00:00.000Z") = Some m ∧
    r = mkReply 201 (Categories.gen_categoryId gen, newCategory gen payload bid) ∧
    categories db !! Categories.gen_categoryId gen = None ∧
    categories db' !! Categories.gen_categoryId gen = Some (newCategory gen payload bid) ∧
    findBudget db' userId m = Some (bid, b).
Proof.
  intros Huniq Hrun.
  pose proof (create_uniqueMonths newDate gen userId monthString payload db Huniq)
    as Huniq'.
  rewrite Hrun in Huniq'. cbn [snd] in Huniq'.
  rewrite categories_create_run in Hrun.
  destruct (newDate _) as [m|]; [|done].
  destruct (String.eqb _ ""); [done|]. cbn zeta in Hrun.
  destruct (findBudget db userId m) as [[bid b]|] eqn:Hfind.
  - destruct (categories db !! _) eqn:Hc; [done|]. simplify_eq.
    exists m, bid, b. repeat split; try done. cbn. apply lookup_insert_eq.
  - destruct (budgetMonths db !! _) eqn:Hb; [done|].
    destruct (categories db !! _) eqn:Hc; [done|]. simplify_eq.
    exists m, (Categories.gen_budgetId gen),
      (mkBudgetMonth userId m (Categories.gen_available gen)).
    repeat split; try done.
    + cbn. apply lookup_insert_eq.
    + apply findBudget_unique; try done. cbn. apply lookup_insert_eq.
Qed.

(** X17. After a categories create that returns, on a store whose budget
    months are unique by user and month, categories list for the same user
    and month answers 200 with a list that holds the created category. *)
Theorem categories_create_then_list newDate gen userId monthString payload db r db' :
  uniqueMonths db →
  Categories.create newDate gen userId monthString payload db = (inr r, db') →
  ∃ l, Categories.list newDate userId monthString db' = inr (mkReply 200 l) ∧
       reply_body r ∈ l.
Proof.
  intros Huniq Hrun.
  destruct (categories_create_201 _ _ _ _ _ _ _ _ Huniq Hrun)
    as (m & bid & b & Hdate & -> & _ & Hnew & Hfind).
  rewrite categories_list_run, Hdate, Hfind. eexists. split; [done|].
  cbn [reply_body]. rewrite list_elem_of_filter, elem_of_map_to_list. by split.
Qed.

(** X18. After a categories create that returns, on a store whose budget
    months are unique by user and month, an assign by the same user for
    the same month to the created category never answers 404. *)
Theorem categories_create_then_assign newDate gen userId monthString payload db r db' amount :
  uniqueMonths db →
  Categories.create newDate gen userId monthString payload db = (inr r, db') →
  ∀ error,
    (Categories.assign newDate userId monthString (reply_body r).1 amount db').1
    ≠ inr (notFound error).
Proof.
  intros Huniq Hrun error.
  destruct (categories_create_201 _ _ _ _ _ _ _ _ Huniq Hrun)
    as (m & bid & b & Hdate & -> & _ & Hnew & Hfind).
  cbn [reply_body fst]. rewrite assign_run, Hdate, Hfind, Hnew.
  cbn [budgetMonthId newCategory]. rewrite decide_True by done.
  unfold InsufficientFunds, notFound. repeat case_match; cbn; congruence.
Qed.

(** ** Listing transactions *)

Lemma coerceInt_inr lo hi d v n :
  TransactionsQuery.coerceInt lo hi d v = inr n →
  (v = TransactionsQuery.Absent ∧ n = d) ∨
  (v = TransactionsQuery.Integer n ∧ lo ≤ n ∧ ∀ h, hi = Some h → n ≤ h).
Proof.
  destruct v as [| |k]; cbn; [intros [= <-]; by left|done|].
  destruct (Z.ltb_spec k lo); [done|]. cbn.
  destruct hi as [h|]; cbn.
  - destruct (Z.ltb_spec h k); [done|]. intros [= <-]. right.
    repeat split; [done|]. intros ? [= <-]. done.
  - intros [= <-]. right. by repeat split.
Qed.


(** What a parsed query knows about its page and its limit. *)
Lemma listSchema_parse_inr query input :
  TransactionsQuery.listSchema_parse query = inr input →
  validPage (TransactionsQuery.q_page query) ∧ validLimit (TransactionsQuery.q_limit query) ∧
  1 ≤ TransactionsQuery.in_page input ∧
  1 ≤ TransactionsQuery.in_limit input ≤ 100 ∧
  (TransactionsQuery.q_page query = TransactionsQuery.Absent →
   TransactionsQuery.in_page input = 1) ∧
  (TransactionsQuery.q_limit query = TransactionsQuery.Absent →
   TransactionsQuery.in_limit input = 25) ∧
  (∀ n, TransactionsQuery.q_page query = TransactionsQuery.Integer n →
        TransactionsQuery.in_page input = n) ∧
  (∀ n, TransactionsQuery.q_limit query = TransactionsQuery.Integer n →
        TransactionsQuery.in_limit input = n) ∧
  TransactionsQuery.in_accountId input = TransactionsQuery.q_accountId query ∧
  TransactionsQuery.in_categoryId input = TransactionsQuery.q_categoryId query ∧
  TransactionsQuery.in_dateFrom input = TransactionsQuery.q_dateFrom query ∧
  TransactionsQuery.in_dateTo input = TransactionsQuery.q_dateTo query.
Proof.
  unfold TransactionsQuery.listSchema_parse, validPage, validLimit.
  destruct (TransactionsQuery.coerceInt 1 None 1 _) as [e|p] eqn:Hp; [done|].
  destruct (TransactionsQuery.coerceInt 1 (Some 100) 25 _) as [e|l] eqn:Hl; [done|].
  intros [= <-]. cbn.
  apply coerceInt_inr in Hp as [[Hp ->]|(Hp & ? & _)];
    apply coerceInt_inr in Hl as [[Hl ->]|(Hl & ? & Hhi)]; rewrite Hp, Hl.
  - repeat split; try done; try lia; by left.
  - specialize (Hhi 100 eq_refl).
    repeat split; try done; try lia; [by left|right; by exists l|by intros ? [= <-]].
  - repeat split; try done; try lia; [right; by exists p|by left|by intros ? [= <-]].
  - specialize (Hhi 100 eq_refl).
    repeat split; try done; try lia;
      [right; by exists p|right; by exists l|by intros ? [= <-]|by intros ? [= <-]].
Qed.



Lemma truthy_Some v : truthy v = true ↔ ∃ s, v = Some s ∧ s ≠ "".
Proof.
  destruct v as [s|]; cbn.
  - rewrite negb_true_iff, String.eqb_neq. split; [by exists s|by intros (? & [= <-] & ?)].
  - split; [done|by intros (? & ? & _)].
Qed.

Lemma whenTruthy_Some v s :
  TransactionsQuery.whenTruthy v = Some s ↔ v = Some s ∧ s ≠ "".
Proof.
  unfold TransactionsQuery.whenTruthy. destruct (truthy v) eqn:Ht.
  - apply truthy_Some in Ht as (s' & -> & Hs'). split; [by intros [= <-]|by intros [? _]].
  - split; [done|]. intros [-> Hs]. assert (truthy (Some s) = true) by (apply truthy_Some; eauto).
    congruence.
Qed.

(** The rows [list] selects are the rows of the caller that pass the
    filters. *)
Lemma transaction_matches_whereOf instant userId input db k t :
  Prisma.transaction_matches instant (TransactionsQuery.whereOf instant userId input) db (k, t)
  = true ↔
  ownsAccount db userId (accountId t) ∧ passesFilters instant input t.
Proof.
  unfold Prisma.transaction_matches, TransactionsQuery.whereOf, passesFilters, ownsAccount.
  cbn [snd Prisma.where_userId Prisma.where_accountId Prisma.where_categoryId
       Prisma.where_gte Prisma.where_lte].
  rewrite !andb_true_iff.
  assert ((match accounts db !! accountId t with
           | Some a => bool_decide (acc_userId a = userId)
           | None => false
           end = true) ↔ ∃ a, accounts db !! accountId t = Some a ∧ acc_userId a = userId)
    as ->.
  { destruct (accounts db !! accountId t) as [a|].
    - rewrite bool_decide_eq_true. split; [by exists a|by intros (? & [= <-] & ?)].
    - split; [done|by intros (? & ? & _)]. }
  assert (∀ (A : Type) (v : option string) (f : string → A) (P : A → bool) (Q : string → Prop),
            (∀ s, P (f s) = true ↔ Q s) →
            from_option P true (f <$> TransactionsQuery.whenTruthy v) = true ↔
            ∀ s, v = Some s → s ≠ "" → Q s) as Hopt.
  { intros A v f P Q HPQ. destruct (TransactionsQuery.whenTruthy v) as [s|] eqn:Hv; cbn.
    - apply whenTruthy_Some in Hv as [-> Hs]. rewrite HPQ.
      split; [by intros ? ? [= <-]|eauto].
    - split; [|done]. intros _ s -> Hs.
      assert (TransactionsQuery.whenTruthy (Some s) = Some s) by (by apply whenTruthy_Some).
      congruence. }
  rewrite <- (option_fmap_id (TransactionsQuery.whenTruthy (TransactionsQuery.in_accountId input))),
          <- (option_fmap_id (TransactionsQuery.whenTruthy (TransactionsQuery.in_categoryId input))).
  rewrite (Hopt _ _ id _ (λ x, accountId t = x)) by (intros; apply bool_decide_eq_true).
  rewrite (Hopt _ _ id _ (λ c, categoryId t = Some c)) by (intros; apply bool_decide_eq_true).
  destruct (truthy (TransactionsQuery.in_dateFrom input)
            || truthy (TransactionsQuery.in_dateTo input)) eqn:Hdates.
  - rewrite (Hopt _ _ instant _ (λ d, instant d ≤ instant (date t)))
      by (intros; apply Z.leb_le).
    rewrite (Hopt _ _ instant _ (λ d, instant (date t) ≤ instant d))
      by (intros; apply Z.leb_le).
    tauto.
  - apply orb_false_iff in Hdates as [Hfrom Hto]. cbn.
    assert (∀ v, truthy v = false → ∀ s, v = Some s → s ≠ "" → False) as Hfalsy.
    { intros v Hv s -> Hs. assert (truthy (Some s) = true) by (apply truthy_Some; eauto).
      congruence. }
    split.
    + intros ((((? & ?) & ?) & _) & _). repeat split; try done.
      * intros d Hd Hne. destruct (Hfalsy _ Hfrom _ Hd Hne).
      * intros d Hd Hne. destruct (Hfalsy _ Hto _ Hd Hne).
    + intros (? & ? & ? & _ & _). done.
Qed.

Lemma transaction_ordered_elem instant w db k t :
  (k, t) ∈ Prisma.transaction_ordered instant w db ↔
  transactions db !! k = Some t ∧ Prisma.transaction_matches instant w db (k, t) = true.
Proof.
  unfold Prisma.transaction_ordered.
  rewrite merge_sort_Permutation, list_elem_of_filter, elem_of_map_to_list.
  rewrite Is_true_true. tauto.
Qed.

Lemma transaction_findMany_sublist instant w skip take_ db :
  Prisma.transaction_findMany instant w skip take_ db
    `sublist_of` Prisma.transaction_ordered instant w db.
Proof.
  unfold Prisma.transaction_findMany.
  etrans; [apply sublist_take|apply sublist_drop].
Qed.

(** X20. Every item transactions list returns is a row of the transaction
    table on an account of the caller, and passes each filter the query
    gives with a non-empty value: the account, the category, the earliest
    and the latest date. *)
Theorem list_items_owned instant userId query db r k t :
  TransactionsQuery.list instant userId query db = inr r →
  (k, t) ∈ TransactionsQuery.items (reply_body r) →
  transactions db !! k = Some t ∧ ownsAccount db userId (accountId t) ∧
  ∃ input, TransactionsQuery.listSchema_parse query = inr input ∧
           passesFilters instant input t.
Proof.
  unfold TransactionsQuery.list.
  destruct (TransactionsQuery.listSchema_parse query) as [e|input]; [done|].
  intros [= <-]. cbn [reply_body TransactionsQuery.items]. intros Hin.
  eapply elem_of_sublist in Hin; [|apply transaction_findMany_sublist].
  apply transaction_ordered_elem in Hin as [Ht Hm].
  apply transaction_matches_whereOf in Hm as [Hown Hpass]. eauto.
Qed.

#[local] Instance newerFirst_trans instant : Transitive (Prisma.newerFirst instant).
Proof. unfold Prisma.newerFirst. intros x y z ? ?. lia. Qed.

#[local] Instance newerFirst_total instant : Total (Prisma.newerFirst instant).
Proof. unfold Prisma.newerFirst. intros x y. lia. Qed.

(** X21. The items transactions list returns are in descending order of
    date: an item is never dated before an item that comes after it. *)
Theorem list_newest_first instant userId query db r :
  TransactionsQuery.list instant userId query db = inr r →
  ∀ i j x y, (i < j)%nat →
    TransactionsQuery.items (reply_body r) !! i = Some x →
    TransactionsQuery.items (reply_body r) !! j = Some y →
    instant (date y.2) ≤ instant (date x.2).
Proof.
  unfold TransactionsQuery.list.
  destruct (TransactionsQuery.listSchema_parse query) as [e|input]; [done|].
  intros [= <-]. cbn [reply_body TransactionsQuery.items].
  unfold Prisma.transaction_findMany.
  set (l := Prisma.transaction_ordered _ _ _).
  assert (StronglySorted (Prisma.newerFirst instant) l) as Hsorted.
  { apply StronglySorted_merge_sort; apply _. }
  set (n := Z.to_nat (TransactionsQuery.in_limit input)). set (skip := Z.to_nat (_ * _)).
  rewrite <- (take_drop skip l) in Hsorted. apply StronglySorted_app_1_r in Hsorted.
  rewrite <- (take_drop n (drop skip l)) in Hsorted. apply StronglySorted_app_1_l in Hsorted.
  intros i j x y Hij Hi Hj.
  apply (StronglySorted_app_1_elem_of (Prisma.newerFirst instant)
           (take j (take n (drop skip l))) (drop j (take n (drop skip l)))).
  - by rewrite take_drop.
  - apply list_elem_of_lookup. exists i. by rewrite lookup_take_lt.
  - apply list_elem_of_lookup. exists 0%nat. by rewrite lookup_drop, Nat.add_0_r.
Qed.

Lemma transaction_ordered_length instant w db :
  Z.of_nat (length (Prisma.transaction_ordered instant w db))
  = Prisma.transaction_count instant w db.
Proof.
  unfold Prisma.transaction_ordered, Prisma.transaction_count.
  by rewrite merge_sort_Permutation.
Qed.

(** X22. In an answer of transactions list, page is at least 1, limit is
    from 1 to 100, total is not negative, and the number of items is the
    smaller of limit and what is left of total after the earlier pages,
    (page - 1) * limit, or 0 if nothing is left. *)
Theorem list_page_size instant userId query db r :
  TransactionsQuery.list instant userId query db = inr r →
  let b := reply_body r in
  1 ≤ TransactionsQuery.page b ∧ 1 ≤ TransactionsQuery.limit b ≤ 100 ∧
  0 ≤ TransactionsQuery.total b ∧
  Z.of_nat (length (TransactionsQuery.items b))
  = Z.min (TransactionsQuery.limit b)
      (Z.max 0 (TransactionsQuery.total b
                - (TransactionsQuery.page b - 1) * TransactionsQuery.limit b)).
Proof.
  unfold TransactionsQuery.list.
  destruct (TransactionsQuery.listSchema_parse query) as [e|input] eqn:Hparse; [done|].
  apply listSchema_parse_inr in Hparse as (_ & _ & Hpage & Hlimit & _).
  intros [= <-]. cbn.
  rewrite <- transaction_ordered_length. unfold Prisma.transaction_findMany.
  rewrite length_take, length_drop. split; [done|]. split; [done|]. split; [lia|].
  nia.
Qed.




(** ** The routes and the error handler *)




(** X26. POST /api/categories/:id/assign of an amount larger than the
    availableToBudget of the budget month, on a category of that month, is
    answered 500 with the error 'Internal server error' (the message
    'Insufficient available funds' matches neither phrase the error
    handler looks for), and nothing is written. *)
Theorem post_assign_insufficient_funds prismaMessage newDate userId monthString id payload db
    m budgetId budget cat :
  newDate (monthString ++ "-01T00:00:00.000Z") = Some m →
  findBudget db userId m = Some (budgetId, budget) →
  categories db !! id = Some cat →
  budgetMonthId cat = budgetId →
  0 ≤ Categories.as_amount payload →
  availableToBudget budget < Categories.as_amount payload →
  Server.post_categories_assign prismaMessage newDate userId monthString id payload db
  = (inl (mkReply 500 (Server.ErrorMessage "Internal server error")), db).
Proof.
  intros Hdate Hfind Hcat Hbid Hnn Hover.
  unfold Server.post_categories_assign, Server.route.
  rewrite assign_run, Hdate, Hfind, Hcat.
  destruct (Z.ltb_spec (Categories.as_amount payload) 0); [lia|].
  rewrite decide_True by done.
  by destruct (Z.ltb_spec (availableToBudget budget) (Categories.as_amount payload)); [|lia].
Qed.

(** X27. For a month that does not parse as a date, GET /api/categories,
    POST /api/categories and POST /api/categories/:id/assign are each
    answered 500 with the error 'Internal server error', and nothing is
    written. *)
Theorem categories_invalid_month prismaMessage newDate gen userId monthString categoryId
    payload amount db :
  newDate (monthString ++ "-01T00:00:00.000Z") = None →
  let failure := mkReply 500 (Server.ErrorMessage "Internal server error") in
  Server.get_categories prismaMessage newDate userId monthString db = inl failure ∧
  Server.post_categories prismaMessage newDate gen userId monthString payload db
  = (inl failure, db) ∧
  Server.post_categories_assign prismaMessage newDate userId monthString categoryId amount db
  = (inl failure, db).
Proof.
  intros Hdate. cbn zeta.
  unfold Server.get_categories, Server.post_categories, Server.post_categories_assign,
    Server.route.
  by rewrite categories_list_run, categories_create_run, assign_run, Hdate.
Qed.

Lemma step_returns op db r :
  (step op db).1 = inr r → status r = 200 ∨ status r = 201 ∨ status r = 404.
Proof.
  destruct op as [gen userId payload|userId tid payload|userId tid]; cbn [step].
  - rewrite create_run. cbn zeta. unfold notFound.
    repeat case_match; cbn; intros ?; simplify_eq; cbn; auto.
  - rewrite patch_run. cbn zeta. unfold notFound, patchSpent.
    repeat case_match; cbn; intros ?; simplify_eq; cbn; auto.
  - rewrite remove_run. cbn zeta. unfold notFound.
    repeat case_match; cbn; intros ?; simplify_eq; cbn; auto.
Qed.

(** What the ledger routes answer with: 200, 201 or 404 from the handler;
    400, 404, 422 or 500 from the error handler. *)
Lemma ledger_route_statuses prismaMessage op db :
  match Server.wrap prismaMessage (step op db).1 with
  | inr sent => status sent = 200 ∨ status sent = 201 ∨ status sent = 404
  | inl failed => reply_status failed = 400 ∨ reply_status failed = 404 ∨
                  reply_status failed = 422 ∨ reply_status failed = 500
  end.
Proof.
  destruct (step op db).1 as [e|r] eqn:Hstep; cbn.
  - unfold Server.errorHandler, Server.answerOf. destruct e; repeat case_match; cbn; auto.
  - by apply (step_returns op db).
Qed.

(** ** Registering, logging in and verifying a token *)

Lemma user_findUnique_Some address users id u :
  Auth.user_findUnique address users = Some (id, u) →
  users !! id = Some u ∧ Auth.user_email u = address.
Proof.
  unfold Auth.user_findUnique. destruct (list_find _ _) as [[i ku]|] eqn:Hfind; [|done].
  intros [= ->]. apply list_find_Some in Hfind as (Hi & He & _).
  apply list_elem_of_lookup_2, elem_of_map_to_list in Hi. done.
Qed.

Lemma user_findUnique_None address users id u :
  Auth.user_findUnique address users = None →
  users !! id = Some u → Auth.user_email u ≠ address.
Proof.
  unfold Auth.user_findUnique. destruct (list_find _ _) eqn:Hfind; [done|]. intros _ Hu.
  apply list_find_None in Hfind. rewrite Forall_forall in Hfind.
  apply (Hfind (id, u)). by apply elem_of_map_to_list.
Qed.

Lemma user_findUnique_unique address users id u :
  uniqueEmails users → users !! id = Some u → Auth.user_email u = address →
  Auth.user_findUnique address users = Some (id, u).
Proof.
  intros Huniq Hu He.
  destruct (Auth.user_findUnique address users) as [[id' u']|] eqn:Hfind.
  - apply user_findUnique_Some in Hfind as (Hu' & He').
    assert (id' = id) as -> by (eapply Huniq; [done..|congruence]).
    congruence.
  - by destruct (user_findUnique_None _ _ _ _ Hfind Hu).
Qed.

(** [register] as a decision tree. *)
Lemma register_run isEmail bcrypt_hash gen payload users :
  Auth.register isEmail bcrypt_hash gen payload users =
    if isEmail (Auth.cr_email payload) && (8 <=? String.length (Auth.cr_password payload))%nat
    then
      match Auth.user_findUnique (Auth.cr_email payload) users with
      | Some _ => (inr (mkReply 409 (Auth.Failed "Email already registered")), users)
      | None =>
        match users !! Auth.gen_id gen with
        | Some _ => (inl (PrismaError "P2002"), users)
        | None =>
          (inr (mkReply 201 (Auth.Registered (Auth.gen_id gen) (Auth.cr_email payload)
                               (Auth.gen_createdAt gen))),
           <[Auth.gen_id gen :=
               Auth.mkUser (Auth.cr_email payload)
                 (bcrypt_hash (Auth.gen_salt gen) (Auth.cr_password payload))
                 (Auth.gen_createdAt gen)]> users)
        end
      end
    else (inl ZodError, users).
Proof.
  unfold Auth.register, Auth.registerSchema_parse.
  destruct (_ && _); [|done].
  destruct (Auth.user_findUnique _ users) eqn:Hfind; [done|].
  cbn zeta. unfold Auth.user_create. cbn [Auth.user_email].
  destruct (users !! Auth.gen_id gen); [done|]. by rewrite Hfind.
Qed.

(** X28. register keeps emails unique: if no two users share an email
    before it, none do after it. *)
Theorem register_keeps_emails_unique isEmail bcrypt_hash gen payload users :
  uniqueEmails users →
  uniqueEmails (Auth.register isEmail bcrypt_hash gen payload users).2.
Proof.
  intros Huniq. rewrite register_run.
  destruct (_ && _); [|done].
  destruct (Auth.user_findUnique _ users) eqn:Hfind; [done|].
  destruct (users !! Auth.gen_id gen) eqn:Hid; [done|]. cbn [snd].
  intros id1 id2 u1 u2 H1 H2 He.
  apply lookup_insert_Some in H1 as [[<- <-]|[Hn1 H1]];
    apply lookup_insert_Some in H2 as [[<- <-]|[Hn2 H2]]; [done| | |by eapply Huniq].
  - by destruct (user_findUnique_None _ _ _ _ Hfind H2).
  - by destruct (user_findUnique_None _ _ _ _ Hfind H1).
Qed.

Lemma register_outcomes isEmail bcrypt_hash gen payload users r users' :
  Auth.register isEmail bcrypt_hash gen payload users = (inr r, users') →
  (reply_status r = 409 ∧ users' = users ∧
   ∃ id u, users !! id = Some u ∧ Auth.user_email u = Auth.cr_email payload) ∨
  (reply_status r = 201 ∧
   reply_body r = Auth.Registered (Auth.gen_id gen) (Auth.cr_email payload)
                    (Auth.gen_createdAt gen) ∧
   users !! Auth.gen_id gen = None ∧
   (∀ id u, users !! id = Some u → Auth.user_email u ≠ Auth.cr_email payload) ∧
   users' = <[Auth.gen_id gen :=
                Auth.mkUser (Auth.cr_email payload)
                  (bcrypt_hash (Auth.gen_salt gen) (Auth.cr_password payload))
                  (Auth.gen_createdAt gen)]> users).
Proof.
  rewrite register_run.
  destruct (_ && _); [|done].
  destruct (Auth.user_findUnique _ users) as [[id u]|] eqn:Hfind.
  - intros [= <- <-]. left. apply user_findUnique_Some in Hfind. eauto.
  - destruct (users !! Auth.gen_id gen) eqn:Hid; [done|].
    intros [= <- <-]. right. repeat split; try done.
    intros id u. by apply user_findUnique_None.
Qed.

Lemma login_run isEmail bcrypt_compare jwt_sign env now payload users :
  Auth.login isEmail bcrypt_compare jwt_sign env now payload users =
    if isEmail (Auth.cr_email payload) && (8 <=? String.length (Auth.cr_password payload))%nat
    then
      match Auth.user_findUnique (Auth.cr_email payload) users with
      | None => inr (mkReply 401 (Auth.Failed "Invalid credentials"))
      | Some (id, user) =>
        if bcrypt_compare (Auth.cr_password payload) (Auth.user_password user) then
          inr (mkReply 200
                 (Auth.LoggedIn (jwt_sign (Auth.mkClaims id (Auth.user_email user))
                                   (Auth.getJwtSecret env) now)))
        else inr (mkReply 401 (Auth.Failed "Invalid credentials"))
      end
    else inl ZodError.
Proof.
  unfold Auth.login, Auth.loginSchema_parse, Auth.registerSchema_parse.
  by destruct (_ && _).
Qed.

Lemma login_grants_only_matching isEmail bcrypt_compare jwt_sign env now payload users r :
  Auth.login isEmail bcrypt_compare jwt_sign env now payload users = inr r →
  reply_status r = 200 →
  ∃ id user,
    users !! id = Some user ∧ Auth.user_email user = Auth.cr_email payload ∧
    bcrypt_compare (Auth.cr_password payload) (Auth.user_password user) = true ∧
    reply_body r = Auth.LoggedIn (jwt_sign (Auth.mkClaims id (Auth.cr_email payload))
                                    (Auth.getJwtSecret env) now).
Proof.
  rewrite login_run. destruct (_ && _); [|done].
  destruct (Auth.user_findUnique _ users) as [[id u]|] eqn:Hfind; [|by intros [= <-]].
  apply user_findUnique_Some in Hfind as (Hu & He).
  destruct (bcrypt_compare _ _) eqn:Hc; [|by intros [= <-]].
  intros [= <-] _. exists id, u. by rewrite He.
Qed.

(** X29. If bcrypt.compare accepts a password against every hash
    bcrypt.hash makes of it, then after a register that answers 201, a
    login with the same payload answers 200 with the token signed for the
    new user's id and email with the secret of getJwtSecret. *)
Theorem register_then_login isEmail bcrypt_hash bcrypt_compare jwt_sign env now gen
    payload users r users' :
  (∀ salt password, bcrypt_compare password (bcrypt_hash salt password) = true) →
  Auth.register isEmail bcrypt_hash gen payload users = (inr r, users') →
  reply_status r = 201 →
  Auth.login isEmail bcrypt_compare jwt_sign env now payload users'
  = inr (mkReply 200
           (Auth.LoggedIn (jwt_sign (Auth.mkClaims (Auth.gen_id gen) (Auth.cr_email payload))
                             (Auth.getJwtSecret env) now))).
Proof.
  intros Hbcrypt. rewrite register_run, login_run.
  destruct (_ && _); [|done].
  destruct (Auth.user_findUnique _ users) as [[id u]|] eqn:Hfind; [by intros [= <- <-]|].
  destruct (users !! Auth.gen_id gen) eqn:Hid; [done|].
  intros [= <- <-] _.
  set (u := Auth.mkUser _ _ _).
  destruct (Auth.user_findUnique _ (<[_ := u]> users)) as [[id' u']|] eqn:Hfind'.
  - apply user_findUnique_Some in Hfind' as (Hu' & He').
    apply lookup_insert_Some in Hu' as [[<- <-]|[_ Hu']].
    + cbn [Auth.user_password Auth.user_email u]. by rewrite Hbcrypt.
    + by destruct (user_findUnique_None _ _ _ _ Hfind Hu').
  - destruct (user_findUnique_None _ _ (Auth.gen_id gen) u Hfind'); [|done].
    apply lookup_insert_eq.
Qed.

Lemma register_twice_conflict isEmail bcrypt_hash gen gen' payload password' users r users' :
  Auth.register isEmail bcrypt_hash gen payload users = (inr r, users') →
  reply_status r = 201 →
  isEmail (Auth.cr_email payload) = true → (8 ≤ String.length password')%nat →
  Auth.register isEmail bcrypt_hash gen'
    (Auth.mkCredentials (Auth.cr_email payload) password') users'
  = (inr (mkReply 409 (Auth.Failed "Email already registered")), users').
Proof.
  rewrite !register_run. cbn [Auth.cr_email Auth.cr_password].
  intros Hrun Hok Hmail Hlen. rewrite Hmail in *. apply Nat.leb_le in Hlen. rewrite Hlen.
  cbn [andb] in *. destruct (8 <=? _)%nat; [|done].
  destruct (Auth.user_findUnique _ users) as [[id u]|] eqn:Hfind; [by simplify_eq/=|].
  destruct (users !! Auth.gen_id gen) eqn:Hid; [done|]. simplify_eq.
  set (u := Auth.mkUser _ _ _).
  destruct (Auth.user_findUnique _ (<[_ := u]> users)) as [[id' u']|] eqn:Hfind'; [done|].
  destruct (user_findUnique_None _ _ (Auth.gen_id gen) u Hfind'); [|done].
  apply lookup_insert_eq.
Qed.

(** A header [Bearer <token>]: the token is what is verified. *)
Lemma verifyJwt_bearer jwt_verify env now token :
  Auth.verifyJwt jwt_verify env now (Some ("Bearer " ++ token)) =
    match jwt_verify token (Auth.getJwtSecret env) now with
    | Some user => inr user
    | None => inl (mkReply 401 (Auth.Failed "Invalid token"))
    end.
Proof. by destruct token. Qed.

(** X30. When login answers 200 with a token, there is a stored user with
    the payload's email whose stored hash bcrypt.compare accepts for the
    payload's password, and, if jwt.verify returns the payload of what
    jwt.sign signed with the same secret, verifyJwt on the header 'Bearer
    <token>' passes on the id of that user as req.user.sub. *)
Theorem login_token_verifies isEmail bcrypt_compare jwt_sign jwt_verify env now later
    payload users token :
  Auth.login isEmail bcrypt_compare jwt_sign env now payload users
  = inr (mkReply 200 (Auth.LoggedIn token)) →
  (∀ id, jwt_verify (jwt_sign (Auth.mkClaims id (Auth.cr_email payload))
                       (Auth.getJwtSecret env) now) (Auth.getJwtSecret env) later
         = Some (Auth.mkVerified (Auth.mkClaims id (Auth.cr_email payload))
                   now (now + 3600))) →
  ∃ id user,
    users !! id = Some user ∧ Auth.user_email user = Auth.cr_email payload ∧
    bcrypt_compare (Auth.cr_password payload) (Auth.user_password user) = true ∧
    Auth.verifyJwt jwt_verify env later (Some ("Bearer " ++ token))
    = inr (Auth.mkVerified (Auth.mkClaims id (Auth.cr_email payload)) now (now + 3600)).
Proof.
  rewrite login_run. intros Hlogin Hjwt. destruct (_ && _); [|done].
  destruct (Auth.user_findUnique _ users) as [[id u]|] eqn:Hfind; [|done].
  apply user_findUnique_Some in Hfind as (Hu & He).
  destruct (bcrypt_compare _ _) eqn:Hcompare; [|done].
  injection Hlogin as <-. exists id, u. split; [done|]. split; [done|]. split; [done|].
  by rewrite verifyJwt_bearer, He, Hjwt.
Qed.

(** ** Further concrete runs *)


Lemma scenarioDb_uniqueMonths : uniqueMonths scenarioDb.
Proof.
  intros id1 b1 id2 b2 H1 H2 _ _. unfold scenarioDb in H1, H2. cbn [budgetMonths] in H1, H2.
  apply lookup_singleton_Some in H1 as [<- _].
  by apply lookup_singleton_Some in H2 as [<- _].
Qed.

Lemma failure_writes_nothing_witness :
  (step (OpRemove "u1" "t9") scenarioDb).2 = scenarioDb.
Proof. apply failure_writes_nothing; reflexivity. Defined.


Lemma foreign_accounts_untouched_witness :
  accounts (step (OpCreate gen1 "u1" (spendOnA 10)) scenarioDb).2 !! "B"
  = Some (mkAccount "u2" "Savings" "savings" 0).
Proof. apply foreign_accounts_untouched; [reflexivity|done]. Defined.

Lemma other_transactions_untouched_witness :
  transactions (step (OpRemove "u1" "t1") twoRowsDb).2 !! "t2" = transactions twoRowsDb !! "t2".
Proof. apply other_transactions_untouched. done. Defined.


Lemma patch_metadata_moves_no_money_witness :
  ∃ existing,
    transactions twoRowsDb !! "t1" = Some existing ∧
    (patch "u1" "t1" patchMemo twoRowsDb).2
    = setTransactions <["t1" := merge patchMemo existing]> twoRowsDb.
Proof.
  apply (patch_metadata_moves_no_money "u1" "t1" patchMemo twoRowsDb
           (mkResponse 200 (BTransaction "t1" (merge patchMemo (rowOn "A" 10))))
           (patch "u1" "t1" patchMemo twoRowsDb).2);
    [reflexivity|reflexivity|reflexivity|vm_compute; reflexivity|reflexivity].
Defined.


Lemma assign_foreign_category_witness :
  ∃ error,
    Categories.assign anyDate "u2" "2026-01" "c" (Categories.mkAssignPayload 10) scenario1Db
    = (inr (notFound error), scenario1Db).
Proof.
  apply (assign_foreign_category anyDate "u2" "2026-01" "c" (Categories.mkAssignPayload 10)
           scenario1Db "2026-01-01T00:00:00.000Z" (mkCategory "m1" "Groceries" 0 0));
    [reflexivity|done|reflexivity|].
  intros b Hb [Hu _]. unfold scenario1Db in Hb. cbn in Hb.
  apply lookup_singleton_Some in Hb as [_ <-]. done.
Defined.

Lemma accounts_patch_outcomes_witness :
  ∃ a',
    Accounts.patch "u1" "A" (Accounts.mkPatchPayload (Some "Main") (Some 250)) scenarioDb
    = (inr (mkResponse 200 (BAccount "A" a')), setAccounts <["A" := a']> scenarioDb) ∧
    acc_userId a' = "u1" ∧ acc_type a' = "checking" ∧
    acc_name a' = "Main" ∧ balance a' = 250.
Proof.
  apply (proj2 (accounts_patch_outcomes "u1" "A"
                  (Accounts.mkPatchPayload (Some "Main") (Some 250)) scenarioDb eq_refl)
           (mkAccount "u1" "Checking" "checking" 100)); reflexivity.
Defined.

Lemma accounts_create_then_list_witness :
  ∃ row,
    BAccount "C" (mkAccount "u1" "Cash" "checking" 0) = BAccount "C" row ∧
    ("C", row) ∈ reply_body
      (Accounts.list String.leb "u1"
         (Accounts.create "C" "u1" (Accounts.mkCreatePayload "Cash" "checking" None)
            scenarioDb).2) ∧
    balance row = 0 ∧
    ∀ k a, k ≠ "C" →
      ((k, a) ∈ reply_body
         (Accounts.list String.leb "u1"
            (Accounts.create "C" "u1" (Accounts.mkCreatePayload "Cash" "checking" None)
               scenarioDb).2) ↔
       (k, a) ∈ reply_body (Accounts.list String.leb "u1" scenarioDb)).
Proof.
  apply (accounts_create_then_list String.leb "C" "u1"
           (Accounts.mkCreatePayload "Cash" "checking" None) scenarioDb
           (mkResponse 201 (BAccount "C" (mkAccount "u1" "Cash" "checking" 0)))).
  vm_compute. reflexivity.
Defined.

Lemma categories_create_keeps_unique_months_witness :
  uniqueMonths
    (Categories.create anyDate (Categories.mkGenerated "m2" 0 "c2" 0 0) "u2" "2026-01"
       (Categories.mkCreatePayload "Rent" None) scenarioDb).2.
Proof. apply categories_create_keeps_unique_months, scenarioDb_uniqueMonths. Defined.

Lemma categories_list_exact_witness :
  ∃ r, Categories.list anyDate "u1" "2026-01" scenarioDb = inr r ∧ reply_status r = 200 ∧
       ∀ id c, (id, c) ∈ reply_body r
               ↔ categoryIn scenarioDb "u1" "2026-01-01T00:00:00.000Z" id c.
Proof.
  apply (categories_list_exact anyDate "u1" "2026-01" scenarioDb "2026-01-01T00:00:00.000Z");
    [reflexivity|apply scenarioDb_uniqueMonths].
Defined.

Lemma categories_create_then_list_witness :
  ∃ l,
    Categories.list anyDate "u2" "2026-01"
      (Categories.create anyDate (Categories.mkGenerated "m2" 0 "c2" 0 0) "u2" "2026-01"
         (Categories.mkCreatePayload "Rent" None) scenarioDb).2
    = inr (mkReply 200 l) ∧
    ("c2", mkCategory "m2" "Rent" 0 0) ∈ l.
Proof.
  apply (categories_create_then_list anyDate (Categories.mkGenerated "m2" 0 "c2" 0 0)
           "u2" "2026-01" (Categories.mkCreatePayload "Rent" None) scenarioDb
           (mkReply 201 ("c2", mkCategory "m2" "Rent" 0 0)));
    [apply scenarioDb_uniqueMonths|vm_compute; reflexivity].
Defined.

Lemma categories_create_then_assign_witness :
  (Categories.assign anyDate "u2" "2026-01" "c2" (Categories.mkAssignPayload 0)
     (Categories.create anyDate (Categories.mkGenerated "m2" 0 "c2" 0 0) "u2" "2026-01"
        (Categories.mkCreatePayload "Rent" None) scenarioDb).2).1
  ≠ inr (notFound "Category not found").
Proof.
  apply (categories_create_then_assign anyDate (Categories.mkGenerated "m2" 0 "c2" 0 0)
           "u2" "2026-01" (Categories.mkCreatePayload "Rent" None) scenarioDb
           (mkReply 201 ("c2", mkCategory "m2" "Rent" 0 0)) _
           (Categories.mkAssignPayload 0));
    [apply scenarioDb_uniqueMonths|vm_compute; reflexivity].
Defined.

Lemma list_items_owned_witness :
  transactions twoRowsDb !! "t2"
  = Some (mkTransaction "A" (Some "c") 5 "2026-01-06T00:00:00.000Z" None None false) ∧
  ownsAccount twoRowsDb "u1" "A" ∧
  ∃ input, TransactionsQuery.listSchema_parse onePerPage = inr input ∧
           passesFilters dayOf input
             (mkTransaction "A" (Some "c") 5 "2026-01-06T00:00:00.000Z" None None false).
Proof.
  apply (list_items_owned dayOf "u1" onePerPage twoRowsDb
           (mkReply 200
              (TransactionsQuery.mkPage
                 [("t2", mkTransaction "A" (Some "c") 5 "2026-01-06T00:00:00.000Z"
                           None None false)] 2 1 1))
           "t2" (mkTransaction "A" (Some "c") 5 "2026-01-06T00:00:00.000Z" None None false));
    [vm_compute; reflexivity|apply list_elem_of_here].
Defined.

Lemma list_newest_first_witness :
  dayOf "2026-01-05T00:00:00.000Z" ≤ dayOf "2026-01-06T00:00:00.000Z".
Proof.
  apply (list_newest_first dayOf "u1"
           (TransactionsQuery.mkQuery TransactionsQuery.Absent TransactionsQuery.Absent
              None None None None)
           twoRowsDb
           (mkReply 200
              (TransactionsQuery.mkPage
                 [("t2", mkTransaction "A" (Some "c") 5 "2026-01-06T00:00:00.000Z"
                           None None false);
                  ("t1", rowOn "A" 10)] 2 1 25))
           ltac:(vm_compute; reflexivity) 0%nat 1%nat
           ("t2", mkTransaction "A" (Some "c") 5 "2026-01-06T00:00:00.000Z" None None false)
           ("t1", rowOn "A" 10));
    [lia|reflexivity|reflexivity].
Defined.

Lemma list_page_size_witness :
  1 ≤ 2 ∧ 1 ≤ 1 ≤ 100 ∧ 0 ≤ 2 ∧
  Z.of_nat (length [("t1", rowOn "A" 10)]) = Z.min 1 (Z.max 0 (2 - (2 - 1) * 1)).
Proof.
  apply (list_page_size dayOf "u1" (withPage onePerPage 2) twoRowsDb
           (mkReply 200 (TransactionsQuery.mkPage [("t1", rowOn "A" 10)] 2 2 1))).
  vm_compute. reflexivity.
Defined.




Lemma post_assign_insufficient_funds_witness :
  Server.post_categories_assign silentClient anyDate "u1" "2026-01" "c"
    (Categories.mkAssignPayload 150) scenario1Db
  = (inl (mkReply 500 (Server.ErrorMessage "Internal server error")), scenario1Db).
Proof.
  apply (post_assign_insufficient_funds silentClient anyDate "u1" "2026-01" "c"
           (Categories.mkAssignPayload 150) scenario1Db "2026-01-01T00:00:00.000Z" "m1"
           (mkBudgetMonth "u1" "2026-01-01T00:00:00.000Z" 100)
           (mkCategory "m1" "Groceries" 0 0));
    [reflexivity|vm_compute; reflexivity|reflexivity|reflexivity|done|reflexivity].
Defined.

Lemma categories_invalid_month_witness :
  Server.get_categories silentClient noDate "u1" "January" scenarioDb
  = inl (mkReply 500 (Server.ErrorMessage "Internal server error")) ∧
  Server.post_categories silentClient noDate (Categories.mkGenerated "m2" 0 "c2" 0 0)
    "u1" "January" (Categories.mkCreatePayload "Rent" None) scenarioDb
  = (inl (mkReply 500 (Server.ErrorMessage "Internal server error")), scenarioDb) ∧
  Server.post_categories_assign silentClient noDate "u1" "January" "c"
    (Categories.mkAssignPayload 10) scenarioDb
  = (inl (mkReply 500 (Server.ErrorMessage "Internal server error")), scenarioDb).
Proof.
  apply (categories_invalid_month silentClient noDate (Categories.mkGenerated "m2" 0 "c2" 0 0)
           "u1" "January" "c" (Categories.mkCreatePayload "Rent" None)
           (Categories.mkAssignPayload 10) scenarioDb).
  reflexivity.
Defined.

Lemma no_users_uniqueEmails : uniqueEmails ∅.
Proof. intros id1 id2 u1 u2 H1. unfold Auth.Users in *. by apply lookup_empty_Some in H1. Qed.

Lemma toyCompare_toyHash salt password : toyCompare password (toyHash salt password) = true.
Proof. apply String.eqb_refl. Qed.

Lemma register_keeps_emails_unique_witness :
  uniqueEmails (Auth.register toyEmail toyHash genU1 demo ∅).2.
Proof. apply register_keeps_emails_unique, no_users_uniqueEmails. Defined.

Lemma register_then_login_witness :
  Auth.login toyEmail toyCompare toySign None 0 demo
    (Auth.register toyEmail toyHash genU1 demo ∅).2
  = inr (mkReply 200 (Auth.LoggedIn "u1")).
Proof.
  apply (register_then_login toyEmail toyHash toyCompare toySign None 0 genU1 demo ∅
           (mkReply 201 (Auth.Registered "u1" "demo@example.com" "2026-01-01T00:00:00.000Z"))
           (Auth.register toyEmail toyHash genU1 demo ∅).2);
    [apply toyCompare_toyHash|vm_compute; reflexivity|reflexivity].
Defined.

Lemma login_token_verifies_witness :
  ∃ id user,
    (Auth.register toyEmail toyHash genU1 demo ∅).2 !! id = Some user ∧
    Auth.user_email user = "demo@example.com" ∧
    toyCompare "password123" (Auth.user_password user) = true ∧
    Auth.verifyJwt toyVerify None 60 (Some "Bearer u1")
    = inr (Auth.mkVerified (Auth.mkClaims id "demo@example.com") 0 (0 + 3600)).
Proof.
  apply (login_token_verifies toyEmail toyCompare toySign toyVerify None 0 60 demo
           (Auth.register toyEmail toyHash genU1 demo ∅).2 "u1");
    [vm_compute; reflexivity|reflexivity].
Defined.
